(** * Purchase strategies of the hypercert mini app

    A shallow embedding of the buy-fractional strategies
    ([EOABuyFractionalStrategy], [SafeBuyFractionalStrategy]) and of the
    string helpers of [lib/utils.ts], with the properties the specification
    states about them. *)

From Stdlib Require Import ZArith List String Ascii Bool Lia DecimalString.
Import ListNotations.
Local Open Scope string_scope.
Local Open Scope Z_scope.

(** ** JavaScript strings

    A JavaScript string is a finite sequence of code units; [length],
    [substring] and [includes] work on code units.  A Rocq [string] is used
    as that sequence. *)
Module JsString.

Definition len (s : string) : Z := Z.of_nat (String.length s).

(** Clamping of an index into [0, hi], as [substring] does to its arguments. *)
Definition clamp (x hi : Z) : Z := Z.max 0 (Z.min x hi).

(** [s.substring(start, end)]: both arguments are clamped into [0, len s]
    and swapped when [start] is the larger. *)
Definition substring (s : string) (start end_ : Z) : string :=
  let a := clamp start (len s) in
  let b := clamp end_ (len s) in
  let from := Z.min a b in
  let to := Z.max a b in
  String.substring (Z.to_nat from) (Z.to_nat (to - from)) s.

(** [s.substring(start)]: the end defaults to the length. *)
Definition substring_from (s : string) (start : Z) : string :=
  substring s start (len s).

(** [s.includes(t)]: [t] occurs in [s]. *)
Fixpoint includes (s t : string) : bool :=
  String.prefix t s ||
  match s with
  | EmptyString => false
  | String _ s' => includes s' t
  end.

(** The [!s] test on a string: only the empty string is falsy. *)
Definition falsy (s : string) : bool :=
  match s with EmptyString => true | _ => false end.

End JsString.

(** ** [lib/utils.ts] *)
Module Utils.
Import JsString.

Definition truncateEthereumAddress (address : string) (length : Z) : string :=
  if falsy address then ""
  else if len address <=? 2 + length * 2 then address
  else substring address 0 (length + 2) ++ "..."
       ++ substring_from address (len address - length).

Definition truncateText (text : string) (length : Z) : string :=
  if falsy text then ""
  else if len text <=? length * 2 then text
  else substring text 0 length ++ "..."
       ++ substring_from text (len text - length).

(** The default value of the [length] parameter. *)
Definition default_length : Z := 4.

End Utils.

(** ** Values of the purchase pipeline *)

(** A value thrown by a JavaScript call. *)
Inductive thrown : Type :=
| JsError (message : string)
    (** an instance of [Error] *)
| JsValue (message : option string) (str : string).
    (** any other value: its [message] property when it has one, and
        [String(e)] *)

(** The result of an awaited (or plain) call into a library. *)
Inductive outcome (A : Type) : Type :=
| Resolved (a : A)
| Rejected (e : thrown).
Arguments Resolved {A} a.
Arguments Rejected {A} e.

(** [e instanceof Error ? e.message : dflt] *)
Definition message_or (e : thrown) (dflt : string) : string :=
  match e with
  | JsError m => m
  | JsValue _ _ => dflt
  end.

(** [e instanceof Error ? e : new Error(String(e))] *)
Definition to_Error (e : thrown) : thrown :=
  match e with
  | JsError m => JsError m
  | JsValue _ s => JsError s
  end.

(** [e.message] of a value that is an [Error] (after [to_Error]). *)
Definition error_message (e : thrown) : string :=
  match to_Error e with
  | JsError m => m
  | JsValue _ s => s
  end.

(** Message of the [TypeError] raised by [undefined.includes(...)]. *)
Definition typeError_includes : string :=
  "Cannot read properties of undefined (reading 'includes')".

Definition zeroAddress : string :=
  "0x0000000000000000000000000000000000000000".

(** Decimal rendering of an integer, as [toString] and template literals
    produce it. *)
Definition toString (z : Z) : string :=
  NilZero.string_of_int (Z.to_int z).

Definition newline : string := String (ascii_of_nat 10) EmptyString.

(** The fields of a [MarketplaceOrder] that the strategies read. *)
Record MarketplaceOrder : Type := mkOrder {
  order_chainId : Z;
  order_currency : string;
  order_price : string;
  order_signature : string;
  order_id : string;
  order_hypercert_id : string
}.

Record Currency : Type := mkCurrency {
  currency_address : string;
  currency_symbol : string;
  currency_decimals : Z
}.

(** The taker bid built by the marketplace SDK. *)
Record Taker : Type := mkTaker {
  taker_recipient : string;
  taker_additionalParameters : string
}.

(** A submitted transaction. *)
Record Tx : Type := mkTx { tx_hash : string }.

Inductive receipt_status : Type := success | reverted.

Record Receipt : Type := mkReceipt {
  receipt_status_of : receipt_status;
  receipt_transactionHash : string
}.

Definition is_success (r : Receipt) : bool :=
  match receipt_status_of r with success => true | reverted => false end.

(** What the final dialog shows. *)
Inductive message : Type :=
| MsgBoughtShare (unitAmount totalUnits : Z) (hypercertName : string)
| MsgSuccessful
| MsgSafeQueued.

Inductive extra_content : Type :=
| ExtraReceipt (m : message) (hypercertId : string) (chain : option Z)
    (receipt : Receipt)
| ExtraSafe (m : message) (hypercertId : string) (chain : option Z)
    (safeAddress : string).

(** What is handed to [emitHash]. *)
Inductive emitted : Type :=
| HashOf (h : string)
| WholeReceipt (r : Receipt).

(** ** Events

    Every call that leaves the strategy is recorded, with its arguments and,
    for calls into the SDK, the wallet and the chain, with its outcome.  The
    callbacks of the dialog context and of the account store are state
    setters: they are recorded and return.  Console output is left out. *)
Inductive event : Type :=
| SetOpen (b : bool)
| SetSteps (steps : list (string * string))
| SetDialogStep (id : string) (status : option string)
    (errorMessage : option string)
| SetExtraContent (c : extra_content)
| EmitHash (h : emitted)
| EmitError (e : thrown)
| GetCurrencyByAddress (chainId : Z) (address : string)
    (r : outcome (option Currency))
| CreateFractionalSaleTakerBid (o : MarketplaceOrder) (address : string)
    (unitAmount : string) (pricePerUnit : string) (r : outcome Taker)
| GetERC20Allowance (currency : string) (r : outcome Z)
| ApproveErc20 (currency : string) (amount : Z) (gasLimit : option Z)
    (r : outcome Tx)
| ApproveErc20Safe (safe : string) (currency : string) (amount : Z)
    (r : outcome unit)
| WaitForTransactionReceipt (hash : string) (timeout : option Z)
    (pollingInterval : option Z) (r : outcome Receipt)
| IsTransferManagerApproved (r : outcome bool)
| IsTransferManagerApprovedSafe (safe : string) (r : outcome bool)
| GrantTransferManagerApproval (r : outcome Tx)
    (** [grantTransferManagerApproval().call()] *)
| GrantTransferManagerApprovalSafe (safe : string) (r : outcome unit)
| GetReferralTag (user consumer : string) (r : outcome string)
| DateNow (t : Z)
| SignMessage (message : string) (r : outcome string)
| ExecuteOrder (o : MarketplaceOrder) (taker : option Taker)
    (signature : string) (value : option Z) (r : outcome Tx)
    (** [executeOrder(...)] followed at once by [call()] *)
| ExecuteOrderSafe (safe : string) (o : MarketplaceOrder)
    (taker : option Taker) (signature : string) (value : option Z)
    (r : outcome unit)
| SubmitReferral (message signature : string) (chainId : Z)
    (r : outcome unit).

Definition trace : Type := list event.

(** The browser window, when there is one. *)
Record Window : Type := mkWindow {
  userAgent : string;
  hostname : string;
  isFrame : bool   (** [window.parent !== window] *)
}.

(** ** The world outside the strategy

    Each library call answers as a function of what has happened so far.
    [BigInt], [decodeContractError] and [SUPPORTED_CHAINS] are pure. *)
Record World : Type := mkWorld {
  w_window : option Window;
  w_BigInt : string -> option Z;
    (** [None]: the string is not an integer literal, [BigInt] throws *)
  w_decodeContractError : thrown -> string -> string;
  w_SUPPORTED_CHAINS : list Z;
  w_getCurrencyByAddress :
    trace -> Z -> string -> outcome (option Currency);
  w_createFractionalSaleTakerBid :
    trace -> MarketplaceOrder -> string -> string -> string -> outcome Taker;
  w_getERC20Allowance : trace -> string -> outcome Z;
  w_approveErc20 : trace -> string -> Z -> option Z -> outcome Tx;
  w_approveErc20Safe : trace -> string -> string -> Z -> outcome unit;
  w_waitForTransactionReceipt :
    trace -> string -> option Z -> option Z -> outcome Receipt;
  w_isTransferManagerApproved : trace -> outcome bool;
  w_isTransferManagerApprovedSafe : trace -> string -> outcome bool;
  w_grantTransferManagerApproval : trace -> outcome Tx;
  w_grantTransferManagerApprovalSafe : trace -> string -> outcome unit;
  w_getReferralTag : trace -> string -> string -> outcome string;
  w_now : trace -> Z;
  w_signMessage : trace -> string -> outcome string;
  w_executeOrder :
    trace -> MarketplaceOrder -> option Taker -> string -> option Z ->
    outcome Tx;
  w_executeOrderSafe :
    trace -> string -> MarketplaceOrder -> option Taker -> string ->
    option Z -> outcome unit;
  w_submitReferral : trace -> string -> string -> Z -> outcome unit
}.

(** ** State of one run of [execute]

    The order object the caller passed, the [let] variables of [execute],
    and the events so far. *)
Record state : Type := mkState {
  st_trace : trace;
  st_order : MarketplaceOrder;
  st_currency : option Currency;
  st_takerOrder : option Taker;
  st_referralTag : string;
  st_signedMessage : string;
  st_referralSignature : string
}.

Definition initial_state (order : MarketplaceOrder) : state :=
  mkState [] order None None "" "" "".

Definition push_event (ev : event) (s : state) : state :=
  mkState (st_trace s ++ [ev])%list (st_order s) (st_currency s) (st_takerOrder s)
    (st_referralTag s) (st_signedMessage s) (st_referralSignature s).

Definition assign_currency (c : option Currency) (s : state) : state :=
  mkState (st_trace s) (st_order s) c (st_takerOrder s)
    (st_referralTag s) (st_signedMessage s) (st_referralSignature s).

Definition assign_takerOrder (t : Taker) (s : state) : state :=
  mkState (st_trace s) (st_order s) (st_currency s) (Some t)
    (st_referralTag s) (st_signedMessage s) (st_referralSignature s).

Definition assign_referralTag (x : string) (s : state) : state :=
  mkState (st_trace s) (st_order s) (st_currency s) (st_takerOrder s)
    x (st_signedMessage s) (st_referralSignature s).

Definition assign_signedMessage (x : string) (s : state) : state :=
  mkState (st_trace s) (st_order s) (st_currency s) (st_takerOrder s)
    (st_referralTag s) x (st_referralSignature s).

Definition assign_referralSignature (x : string) (s : state) : state :=
  mkState (st_trace s) (st_order s) (st_currency s) (st_takerOrder s)
    (st_referralTag s) (st_signedMessage s) x.

(** ** The monad of [execute]: state, and exceptions that keep the state *)
Definition M (A : Type) : Type := World -> state -> state * outcome A.

Definition ret {A} (a : A) : M A := fun _ s => (s, Resolved a).

Definition throw {A} (e : thrown) : M A := fun _ s => (s, Rejected e).

Definition bind {A B} (m : M A) (k : A -> M B) : M B :=
  fun w s =>
    match m w s with
    | (s', Resolved a) => k a w s'
    | (s', Rejected e) => (s', Rejected e)
    end.

(** [try { m } catch (e) { h e }] *)
Definition try_catch {A} (m : M A) (h : thrown -> M A) : M A :=
  fun w s =>
    match m w s with
    | (s', Resolved a) => (s', Resolved a)
    | (s', Rejected e) => h e w s'
    end.

(** A callback of the dialog context or of the store. *)
Definition emit (ev : event) : M unit :=
  fun _ s => (push_event ev s, Resolved tt).

(** A call into a library: the world answers from the events so far, the
    call and its outcome are recorded, and a rejection is thrown. *)
Definition ask {A} (q : World -> trace -> outcome A)
    (record : outcome A -> event) : M A :=
  fun w s => let r := q w (st_trace s) in (push_event (record r) s, r).

Definition gets {A} (f : state -> A) : M A := fun _ s => (s, Resolved (f s)).

Definition world {A} (f : World -> A) : M A := fun w s => (s, Resolved (f w)).

Definition modify (f : state -> state) : M unit :=
  fun _ s => (f s, Resolved tt).

Definition when (b : bool) (m : M unit) : M unit :=
  if b then m else ret tt.

Declare Scope js_scope.
Delimit Scope js_scope with js.
Notation "x <- m ;; k" := (bind m (fun x => k))
  (at level 100, m at next level, right associativity) : js_scope.
Notation "m ;; k" := (bind m (fun _ => k))
  (at level 100, right associativity) : js_scope.
Local Open Scope js_scope.

(** The strategy object: the fields of [this] that [execute] reads. *)
Record Strategy : Type := mkStrategy {
  this_exchangeClient : bool;      (** is there an exchange client *)
  this_chainId : option Z;
  this_walletClient_data : bool;   (** is there wallet client data *)
  this_address : string
}.

(** [!this.chainId] *)
Definition falsy_chainId (c : option Z) : bool :=
  match c with
  | None => true
  | Some n => n =? 0
  end.

(** [this.chainId] where it is passed on, after the guard. *)
Definition chainId_value (c : option Z) : Z :=
  match c with Some n => n | None => 0 end.

(** The arguments of [execute] besides the order. *)
Record Args : Type := mkArgs {
  unitAmount : Z;
  pricePerUnit : string;
  hypercertName : option string;
  totalUnitsInHypercert : option Z
}.

(** The five steps of the pipeline. *)
Inductive step : Type :=
| Setup | Erc20 | TransferManager | Referral | Execution.


Definition consumer : string := "0x21dfd1CfD1d45801f46B0F40Aed056b064045aA2".

(** ** Code shared, word for word, by the three strategy files *)
Module Shared.
Import JsString.

(** The guards at the head of [execute]. *)
Definition guards (this : Strategy) : M unit :=
  when (negb (this_exchangeClient this))
    (emit (SetOpen false) ;; throw (JsError "No client")) ;;
  when (falsy_chainId (this_chainId this))
    (emit (SetOpen false) ;; throw (JsError "No chain id")) ;;
  when (negb (this_walletClient_data this))
    (emit (SetOpen false) ;; throw (JsError "No wallet client data")).

Definition guards_pass (this : Strategy) : bool :=
  this_exchangeClient this && negb (falsy_chainId (this_chainId this))
  && this_walletClient_data this.

Definition invalid_currency (o : MarketplaceOrder) : string :=
  "Invalid currency " ++ order_currency o ++ " on chain "
  ++ toString (order_chainId o).

Definition getCurrencyByAddress (chainId : Z) (address : string)
  : M (option Currency) :=
  ask (fun w h => w_getCurrencyByAddress w h chainId address)
      (GetCurrencyByAddress chainId address).

Definition createFractionalSaleTakerBid (o : MarketplaceOrder)
    (address units ppu : string) : M Taker :=
  ask (fun w h => w_createFractionalSaleTakerBid w h o address units ppu)
      (CreateFractionalSaleTakerBid o address units ppu).

Definition getERC20Allowance (currency : string) : M Z :=
  ask (fun w h => w_getERC20Allowance w h currency)
      (GetERC20Allowance currency).

Definition approveErc20 (currency : string) (amount : Z)
    (gasLimit : option Z) : M Tx :=
  ask (fun w h => w_approveErc20 w h currency amount gasLimit)
      (ApproveErc20 currency amount gasLimit).

Definition approveErc20Safe (safe currency : string) (amount : Z) : M unit :=
  ask (fun w h => w_approveErc20Safe w h safe currency amount)
      (ApproveErc20Safe safe currency amount).

Definition waitForTransactionReceipt (hash : string)
    (timeout pollingInterval : option Z) : M Receipt :=
  ask (fun w h => w_waitForTransactionReceipt w h hash timeout pollingInterval)
      (WaitForTransactionReceipt hash timeout pollingInterval).

Definition isTransferManagerApproved : M bool :=
  ask w_isTransferManagerApproved IsTransferManagerApproved.

Definition isTransferManagerApprovedSafe (safe : string) : M bool :=
  ask (fun w h => w_isTransferManagerApprovedSafe w h safe)
      (IsTransferManagerApprovedSafe safe).

Definition grantTransferManagerApproval : M Tx :=
  ask w_grantTransferManagerApproval GrantTransferManagerApproval.

Definition grantTransferManagerApprovalSafe (safe : string) : M unit :=
  ask (fun w h => w_grantTransferManagerApprovalSafe w h safe)
      (GrantTransferManagerApprovalSafe safe).

Definition getReferralTag (user consumer : string) : M string :=
  ask (fun w h => w_getReferralTag w h user consumer)
      (GetReferralTag user consumer).

(** [Date.now()] *)
Definition now : M Z :=
  fun w s =>
    let t := w_now w (st_trace s) in (push_event (DateNow t) s, Resolved t).

Definition signMessage (message : string) : M string :=
  ask (fun w h => w_signMessage w h message) (SignMessage message).

Definition executeOrder (o : MarketplaceOrder) (taker : option Taker)
    (signature : string) (value : option Z) : M Tx :=
  ask (fun w h => w_executeOrder w h o taker signature value)
      (ExecuteOrder o taker signature value).

Definition executeOrderSafe (safe : string) (o : MarketplaceOrder)
    (taker : option Taker) (signature : string) (value : option Z)
  : M unit :=
  ask (fun w h => w_executeOrderSafe w h safe o taker signature value)
      (ExecuteOrderSafe safe o taker signature value).

Definition submitReferral (message signature : string) (chainId : Z)
  : M unit :=
  ask (fun w h => w_submitReferral w h message signature chainId)
      (SubmitReferral message signature chainId).

(** [BigInt(s)] *)
Definition BigInt (s : string) : M Z :=
  fun w st =>
    match w_BigInt w s with
    | Some z => (st, Resolved z)
    | None =>
        (st, Rejected (JsError ("Cannot convert " ++ s ++ " to a BigInt")))
    end.

(** [SUPPORTED_CHAINS.find((x) => x.id === chainId)], by its id. *)
Definition find_chain (chainId : Z) : M (option Z) :=
  world (fun w => List.find (Z.eqb chainId) (w_SUPPORTED_CHAINS w)).

Definition decodeContractError (e : thrown) (dflt : string) : M string :=
  world (fun w => w_decodeContractError w e dflt).

(** The body of the first [try]. *)
Definition setup_body (this : Strategy) (args : Args) : M unit :=
  emit (SetDialogStep "Setting up order execution" None None) ;;
  o <- gets st_order ;;
  c <- getCurrencyByAddress (order_chainId o) (order_currency o) ;;
  modify (assign_currency c) ;;
  match c with
  | None => throw (JsError (invalid_currency o))
  | Some _ => ret tt
  end ;;
  t <- createFractionalSaleTakerBid o (this_address this)
         (toString (unitAmount args)) (pricePerUnit args) ;;
  modify (assign_takerOrder t).

Definition setup_handler (e : thrown) : M unit :=
  emit (SetDialogStep "Setting up order execution" (Some "error")
          (Some (message_or e "Error setting up order execution"))) ;;
  throw (JsError "Error setting up order execution").

(** [let referralTag = ''; let signedMessage = ''; let referralSignature = '';] *)
Definition referral_init : M unit :=
  modify (assign_referralTag "") ;;
  modify (assign_signedMessage "") ;;
  modify (assign_referralSignature "").

(** [order.id || 'unknown'] *)
Definition id_or_unknown (o : MarketplaceOrder) : string :=
  if falsy (order_id o) then "unknown" else order_id o.

(** The body of the referral [try]; the two wallet kinds differ in the
    text of the message only. *)
Definition referral_body (this : Strategy)
    (referralMessage : string -> MarketplaceOrder -> Z -> string) : M unit :=
  emit (SetDialogStep "Divvi referral setup" None None) ;;
  tag <- getReferralTag (this_address this) consumer ;;
  modify (assign_referralTag tag) ;;
  referralTag <- gets st_referralTag ;;
  o <- gets st_order ;;
  t <- now ;;
  sig <- signMessage (referralMessage referralTag o t) ;;
  modify (assign_referralSignature sig) ;;
  modify (assign_signedMessage (referralMessage referralTag o t)).

Definition referral_handler (e : thrown) : M unit :=
  emit (SetDialogStep "Divvi referral setup" (Some "error")
          (Some (message_or e "Error setting up referral"))).

(** The inner [try] around [submitReferral]. *)
Definition submit_referral (this : Strategy) : M unit :=
  try_catch
    (signedMessage <- gets st_signedMessage ;;
     referralSignature <- gets st_referralSignature ;;
     when (negb (falsy signedMessage) && negb (falsy referralSignature))
       (submitReferral signedMessage referralSignature
          (chainId_value (this_chainId this))))
    (fun _ => ret tt).

(** [currency.address === zeroAddress ? { value: totalPrice } : undefined] *)
Definition overrides (currency : Currency) (totalPrice : Z) : option Z :=
  if (currency_address currency =? zeroAddress)%string
  then Some totalPrice else None.

(** [message] of a thrown value typed [any]. *)
Definition message_of (e : thrown) : option string :=
  match e with
  | JsError m => Some m
  | JsValue m _ => m
  end.

End Shared.

(** ** [frontend/src/components/EOABuyFractionalStrategy.tsx] *)
Module EOA.
Import JsString Shared.

Definition lower (c : ascii) : ascii :=
  let n := nat_of_ascii c in
  if (Nat.leb 65 n && Nat.leb n 90)%bool then ascii_of_nat (n + 32) else c.

(** [toLowerCase], on the letters A to Z. *)
Fixpoint toLowerCase (s : string) : string :=
  match s with
  | EmptyString => EmptyString
  | String c s' => String (lower c) (toLowerCase s')
  end.

Definition isFarcasterEnvironment (window : option Window) : bool :=
  match window with
  | None => false
  | Some win =>
      includes (toLowerCase (userAgent win)) "farcaster"
      || includes (hostname win) "warpcast"
      || isFrame win
  end.

Definition steps : list (string * string) :=
  [ ("Setting up order execution", "Setting up order execution");
    ("ERC20", "Setting approval");
    ("Transfer manager", "Approving transfer manager");
    ("Divvi referral setup", "Setting up referral attribution");
    ("Awaiting buy signature", "Awaiting buy signature");
    ("Awaiting confirmation", "Awaiting confirmation") ].

Definition erc20_body (isInFarcaster : bool) (currency : Currency)
    (totalPrice : Z) : M unit :=
  emit (SetDialogStep "ERC20" None None) ;;
  o <- gets st_order ;;
  when (negb (currency_address currency =? zeroAddress)%string)
    (if isInFarcaster then
       try_catch
         (approveTx <- approveErc20 (order_currency o) totalPrice
                         (Some 100000) ;;
          receipt <- waitForTransactionReceipt (tx_hash approveTx)
                       (Some 120000) (Some 2000) ;;
          when (negb (is_success receipt))
            (throw (JsError "Approval transaction failed")))
         (fun approvalError =>
            match message_of approvalError with
            | None => throw (JsError typeError_includes)
            | Some m =>
                when (negb (includes m "allowance")
                      && negb (includes m "approved")
                      && negb (includes m "insufficient"))
                  (throw approvalError)
            end)
     else
       currentAllowance <- getERC20Allowance (order_currency o) ;;
       when (currentAllowance <? totalPrice)
         (approveTx <- approveErc20 (order_currency o) totalPrice None ;;
          receipt <- waitForTransactionReceipt (tx_hash approveTx)
                       (Some 60000) None ;;
          when (negb (is_success receipt))
            (throw (JsError "Approval transaction failed")))).

Definition erc20_errorMessage (e : thrown) : string :=
  let m := error_message e in
  if includes m "insufficient funds" then
    "Insufficient funds for approval. Please ensure you have enough ETH for gas fees."
  else if includes m "user rejected" || includes m "User rejected" then
    "Approval transaction was rejected. Please try again and confirm the transaction."
  else if includes m "does not support" then
    "Wallet compatibility issue. Please try opening this page in a regular browser."
  else "Approval failed: " ++ m.

Definition erc20_handler (e : thrown) : M unit :=
  emit (SetDialogStep "ERC20" (Some "error") (Some (erc20_errorMessage e))) ;;
  throw (JsError (erc20_errorMessage e)).

Definition transfer_manager_body (isInFarcaster : bool) : M unit :=
  emit (SetDialogStep "Transfer manager" None None) ;;
  if isInFarcaster then
    try_catch
      (transferManagerApprove <- grantTransferManagerApproval ;;
       receipt <- waitForTransactionReceipt (tx_hash transferManagerApprove)
                    (Some 120000) None ;;
       when (negb (is_success receipt))
         (throw (JsError "Transfer manager approval failed")))
      (fun transferError =>
         let m := error_message transferError in
         when (negb (includes m "approved") && negb (includes m "already"))
           (throw (to_Error transferError)))
  else
    approved <- isTransferManagerApproved ;;
    when (negb approved)
      (transferManagerApprove <- grantTransferManagerApproval ;;
       receipt <- waitForTransactionReceipt (tx_hash transferManagerApprove)
                    (Some 60000) None ;;
       when (negb (is_success receipt))
         (throw (JsError "Transfer manager approval failed"))).

Definition transfer_manager_errorMessage (e : thrown) : string :=
  let m := error_message e in
  if includes m "user rejected" then
    "Transfer manager approval was rejected. This is required to complete the purchase."
  else if includes m "does not support" then
    "Wallet compatibility issue with transfer manager. Please try in a regular browser."
  else "Transfer manager approval failed: " ++ m.

Definition transfer_manager_handler (e : thrown) : M unit :=
  emit (SetDialogStep "Transfer manager" (Some "error")
          (Some (transfer_manager_errorMessage e))) ;;
  throw (JsError (transfer_manager_errorMessage e)).

Definition referralMessage (referralTag : string) (o : MarketplaceOrder)
    (t : Z) : string :=
  "Divvi Referral Attribution" ++ newline
  ++ "Referral Tag: " ++ referralTag ++ newline
  ++ "Order ID: " ++ id_or_unknown o ++ newline
  ++ "Timestamp: " ++ toString t.

(** The text of the congratulation. *)
Definition final_message (args : Args) : message :=
  match hypercertName args, totalUnitsInHypercert args with
  | Some name, Some total =>
      if falsy name then MsgSuccessful
      else MsgBoughtShare (unitAmount args) total name
  | _, _ => MsgSuccessful
  end.

Definition execution_body (this : Strategy) (args : Args)
    (currency : Currency) (totalPrice : Z) : M unit :=
  emit (SetDialogStep "Awaiting buy signature" None None) ;;
  o <- gets st_order ;;
  takerOrder <- gets st_takerOrder ;;
  tx <- executeOrder o takerOrder (order_signature o)
          (overrides currency totalPrice) ;;
  emit (SetDialogStep "Awaiting confirmation" None None) ;;
  receipt <- waitForTransactionReceipt (tx_hash tx) None None ;;
  submit_referral this ;;
  emit (EmitHash (HashOf (receipt_transactionHash receipt))) ;;
  chain <- find_chain (order_chainId o) ;;
  emit (SetDialogStep "Awaiting confirmation" (Some "completed") None) ;;
  emit (SetExtraContent
          (ExtraReceipt (final_message args) (order_hypercert_id o) chain
             receipt)).

Definition execution_handler (e : thrown) : M unit :=
  decodedMessage <- decodeContractError e "Error buying listing" ;;
  emit (SetDialogStep "Awaiting confirmation" (Some "error")
          (Some decodedMessage)) ;;
  emit (EmitError e) ;;
  throw (JsError decodedMessage).

(** The [try] body and the [catch] handler of each step.  [currency] and
    [totalPrice] are the constants that [execute] binds after the setup
    step. *)
Definition body (this : Strategy) (args : Args) (isInFarcaster : bool)
    (currency : Currency) (totalPrice : Z) (s : step) : M unit :=
  match s with
  | Setup => setup_body this args
  | Erc20 => erc20_body isInFarcaster currency totalPrice
  | TransferManager => transfer_manager_body isInFarcaster
  | Referral => referral_body this referralMessage
  | Execution => execution_body this args currency totalPrice
  end.

Definition handler (s : step) : thrown -> M unit :=
  match s with
  | Setup => setup_handler
  | Erc20 => erc20_handler
  | TransferManager => transfer_manager_handler
  | Referral => referral_handler
  | Execution => execution_handler
  end.

Definition run_step (this : Strategy) (args : Args) (isInFarcaster : bool)
    (currency : Currency) (totalPrice : Z) (s : step) : M unit :=
  try_catch (body this args isInFarcaster currency totalPrice s) (handler s).

(** What follows the setup step, once [currency] is known to be defined. *)
Definition after_setup (this : Strategy) (args : Args) (isInFarcaster : bool)
    (currency : Currency) : M unit :=
  o <- gets st_order ;;
  price <- BigInt (order_price o) ;;
  let totalPrice := price * unitAmount args in
  run_step this args isInFarcaster currency totalPrice Erc20 ;;
  run_step this args isInFarcaster currency totalPrice TransferManager ;;
  referral_init ;;
  run_step this args isInFarcaster currency totalPrice Referral ;;
  run_step this args isInFarcaster currency totalPrice Execution.

Definition execute (this : Strategy) (args : Args) : M unit :=
  guards this ;;
  isInFarcaster <- world (fun w => isFarcasterEnvironment (w_window w)) ;;
  emit (SetSteps steps) ;;
  emit (SetOpen true) ;;
  try_catch (setup_body this args) setup_handler ;;
  currency <- gets st_currency ;;
  match currency with
  | None => o <- gets st_order ;; throw (JsError (invalid_currency o))
  | Some currency => after_setup this args isInFarcaster currency
  end.

End EOA.

(** ** [EOABuyFractionalStrategy] without environment detection
    (the second copy of the file, [unnamed/part_001]) *)
Module EOAPlain.
Import JsString Shared.

Definition steps : list (string * string) := EOA.steps.

Definition erc20_body (currency : Currency) (totalPrice : Z) : M unit :=
  emit (SetDialogStep "ERC20" None None) ;;
  o <- gets st_order ;;
  when (negb (currency_address currency =? zeroAddress)%string)
    (currentAllowance <- getERC20Allowance (order_currency o) ;;
     when (currentAllowance <? totalPrice)
       (approveTx <- approveErc20 (order_currency o) totalPrice None ;;
        _ <- waitForTransactionReceipt (tx_hash approveTx) None None ;;
        ret tt)).

Definition erc20_handler (e : thrown) : M unit :=
  emit (SetDialogStep "ERC20" (Some "error")
          (Some (message_or e "Approval error"))) ;;
  throw (JsError "Approval error").

Definition transfer_manager_body : M unit :=
  emit (SetDialogStep "Transfer manager" None None) ;;
  approved <- isTransferManagerApproved ;;
  when (negb approved)
    (transferManagerApprove <- grantTransferManagerApproval ;;
     _ <- waitForTransactionReceipt (tx_hash transferManagerApprove)
            None None ;;
     ret tt).

Definition transfer_manager_handler (e : thrown) : M unit :=
  emit (SetDialogStep "Transfer manager" (Some "error")
          (Some (message_or e "Error approving transfer manager"))) ;;
  throw (JsError "Approval error").

Definition execution_body (this : Strategy) (args : Args)
    (currency : Currency) (totalPrice : Z) : M unit :=
  emit (SetDialogStep "Awaiting buy signature" None None) ;;
  o <- gets st_order ;;
  takerOrder <- gets st_takerOrder ;;
  tx <- executeOrder o takerOrder (order_signature o)
          (overrides currency totalPrice) ;;
  emit (SetDialogStep "Awaiting confirmation" None None) ;;
  receipt <- waitForTransactionReceipt (tx_hash tx) None None ;;
  submit_referral this ;;
  emit (EmitHash (WholeReceipt receipt)) ;;
  chain <- find_chain (order_chainId o) ;;
  emit (SetDialogStep "Awaiting confirmation" (Some "completed") None) ;;
  emit (SetExtraContent
          (ExtraReceipt (EOA.final_message args) (order_hypercert_id o) chain
             receipt)).

Definition execution_handler (e : thrown) : M unit :=
  decodedMessage <- decodeContractError e "Error buying listing" ;;
  emit (SetDialogStep "Awaiting confirmation" (Some "error")
          (Some decodedMessage)) ;;
  throw (JsError decodedMessage).

Definition body (this : Strategy) (args : Args) (currency : Currency)
    (totalPrice : Z) (s : step) : M unit :=
  match s with
  | Setup => setup_body this args
  | Erc20 => erc20_body currency totalPrice
  | TransferManager => transfer_manager_body
  | Referral => referral_body this EOA.referralMessage
  | Execution => execution_body this args currency totalPrice
  end.

Definition handler (s : step) : thrown -> M unit :=
  match s with
  | Setup => setup_handler
  | Erc20 => erc20_handler
  | TransferManager => transfer_manager_handler
  | Referral => referral_handler
  | Execution => execution_handler
  end.

Definition run_step (this : Strategy) (args : Args) (currency : Currency)
    (totalPrice : Z) (s : step) : M unit :=
  try_catch (body this args currency totalPrice s) (handler s).

Definition after_setup (this : Strategy) (args : Args) (currency : Currency)
  : M unit :=
  o <- gets st_order ;;
  price <- BigInt (order_price o) ;;
  let totalPrice := price * unitAmount args in
  run_step this args currency totalPrice Erc20 ;;
  run_step this args currency totalPrice TransferManager ;;
  referral_init ;;
  run_step this args currency totalPrice Referral ;;
  run_step this args currency totalPrice Execution.

Definition execute (this : Strategy) (args : Args) : M unit :=
  guards this ;;
  emit (SetSteps steps) ;;
  emit (SetOpen true) ;;
  try_catch (setup_body this args) setup_handler ;;
  currency <- gets st_currency ;;
  match currency with
  | None => o <- gets st_order ;; throw (JsError (invalid_currency o))
  | Some currency => after_setup this args currency
  end.

End EOAPlain.

(** ** [SafeBuyFractionalStrategy] ([unnamed/part_000]) *)
Module Safe.
Import JsString Shared.

Definition steps : list (string * string) :=
  [ ("Setting up order execution", "Setting up order execution");
    ("ERC20", "Setting approval on Safe");
    ("Transfer manager", "Approving transfer manager on Safe");
    ("Divvi referral setup", "Setting up referral attribution");
    ("Submitting order",
     "Submitting buy transaction to Safe transaction queue");
    ("Transaction queued", "Transaction(s) queued on Safe") ].

Definition erc20_body (this : Strategy) (currency : Currency)
    (totalPrice : Z) : M unit :=
  emit (SetDialogStep "ERC20" None None) ;;
  o <- gets st_order ;;
  when (negb (currency_address currency =? zeroAddress)%string)
    (currentAllowance <- getERC20Allowance (order_currency o) ;;
     when (currentAllowance <? totalPrice)
       (approveErc20Safe (this_address this) (order_currency o) totalPrice)).

Definition erc20_handler (e : thrown) : M unit :=
  emit (SetDialogStep "ERC20" (Some "error")
          (Some (message_or e "Approval error"))) ;;
  throw (JsError "Approval error").

Definition transfer_manager_body (this : Strategy) : M unit :=
  emit (SetDialogStep "Transfer manager" None None) ;;
  approved <- isTransferManagerApprovedSafe (this_address this) ;;
  when (negb approved)
    (grantTransferManagerApprovalSafe (this_address this)).

Definition transfer_manager_handler (e : thrown) : M unit :=
  emit (SetDialogStep "Transfer manager" (Some "error")
          (Some (message_or e "Error approving transfer manager"))) ;;
  throw (JsError "Approval error").

Definition referralMessage (this : Strategy) (referralTag : string)
    (o : MarketplaceOrder) (t : Z) : string :=
  "Divvi Referral Attribution (Safe Transaction)" ++ newline
  ++ "Referral Tag: " ++ referralTag ++ newline
  ++ "Safe Address: " ++ this_address this ++ newline
  ++ "Order ID: " ++ id_or_unknown o ++ newline
  ++ "Timestamp: " ++ toString t.

Definition execution_body (this : Strategy) (currency : Currency)
    (totalPrice : Z) : M unit :=
  emit (SetDialogStep "Submitting order" None None) ;;
  o <- gets st_order ;;
  takerOrder <- gets st_takerOrder ;;
  executeOrderSafe (this_address this) o takerOrder (order_signature o)
    (overrides currency totalPrice) ;;
  emit (SetDialogStep "Transaction queued" None None) ;;
  submit_referral this ;;
  chain <- find_chain (order_chainId o) ;;
  emit (SetExtraContent
          (ExtraSafe MsgSafeQueued (order_hypercert_id o) chain
             (this_address this))).

Definition execution_handler (e : thrown) : M unit :=
  decodedMessage <- decodeContractError e "Error buying listing" ;;
  emit (SetDialogStep "Submitting order" (Some "error")
          (Some decodedMessage)) ;;
  throw (JsError decodedMessage).

Definition body (this : Strategy) (args : Args) (currency : Currency)
    (totalPrice : Z) (s : step) : M unit :=
  match s with
  | Setup => setup_body this args
  | Erc20 => erc20_body this currency totalPrice
  | TransferManager => transfer_manager_body this
  | Referral => referral_body this (referralMessage this)
  | Execution => execution_body this currency totalPrice
  end.

Definition handler (s : step) : thrown -> M unit :=
  match s with
  | Setup => setup_handler
  | Erc20 => erc20_handler
  | TransferManager => transfer_manager_handler
  | Referral => referral_handler
  | Execution => execution_handler
  end.

Definition run_step (this : Strategy) (args : Args) (currency : Currency)
    (totalPrice : Z) (s : step) : M unit :=
  try_catch (body this args currency totalPrice s) (handler s).

Definition after_setup (this : Strategy) (args : Args) (currency : Currency)
  : M unit :=
  o <- gets st_order ;;
  price <- BigInt (order_price o) ;;
  let totalPrice := price * unitAmount args in
  run_step this args currency totalPrice Erc20 ;;
  run_step this args currency totalPrice TransferManager ;;
  referral_init ;;
  run_step this args currency totalPrice Referral ;;
  run_step this args currency totalPrice Execution.

Definition execute (this : Strategy) (args : Args) : M unit :=
  guards this ;;
  emit (SetSteps steps) ;;
  emit (SetOpen true) ;;
  try_catch (setup_body this args) setup_handler ;;
  currency <- gets st_currency ;;
  match currency with
  | None => o <- gets st_order ;; throw (JsError (invalid_currency o))
  | Some currency => after_setup this args currency
  end.

End Safe.

(** ** The three strategies under one name *)
Inductive strategy : Type :=
| FrontendEOA   (** [EOA], with environment detection *)
| PlainEOA      (** [EOAPlain] *)
| SafeQueue.    (** [Safe] *)

Definition execute (k : strategy) : Strategy -> Args -> M unit :=
  match k with
  | FrontendEOA => EOA.execute
  | PlainEOA => EOAPlain.execute
  | SafeQueue => Safe.execute
  end.

Definition steps_of (k : strategy) : list (string * string) :=
  match k with
  | FrontendEOA => EOA.steps
  | PlainEOA => EOAPlain.steps
  | SafeQueue => Safe.steps
  end.

(** The [try] body, the [catch] handler and the whole [try] statement of a
    step.  Only [FrontendEOA] looks at [isInFarcaster]. *)
Definition body (k : strategy) (this : Strategy) (args : Args)
    (isInFarcaster : bool) (currency : Currency) (totalPrice : Z) (s : step)
  : M unit :=
  match k with
  | FrontendEOA => EOA.body this args isInFarcaster currency totalPrice s
  | PlainEOA => EOAPlain.body this args currency totalPrice s
  | SafeQueue => Safe.body this args currency totalPrice s
  end.

Definition handler (k : strategy) (s : step) : thrown -> M unit :=
  match k with
  | FrontendEOA => EOA.handler s
  | PlainEOA => EOAPlain.handler s
  | SafeQueue => Safe.handler s
  end.

Definition run_step (k : strategy) (this : Strategy) (args : Args)
    (isInFarcaster : bool) (currency : Currency) (totalPrice : Z) (s : step)
  : M unit :=
  try_catch (body k this args isInFarcaster currency totalPrice s)
    (handler k s).

(** One run of [execute] on the order [order]. *)
Definition run (k : strategy) (this : Strategy) (order : MarketplaceOrder)
    (args : Args) (w : World) : state * outcome unit :=
  execute k this args w (initial_state order).

Definition trace_of (k : strategy) (this : Strategy)
    (order : MarketplaceOrder) (args : Args) (w : World) : trace :=
  st_trace (fst (run k this order args w)).

Definition result_of (k : strategy) (this : Strategy)
    (order : MarketplaceOrder) (args : Args) (w : World) : outcome unit :=
  snd (run k this order args w).

(** The id with which a step announces itself.  The dialog of the EOA
    strategies has two entries for the order execution, "Awaiting buy
    signature" and "Awaiting confirmation"; the step begins with the
    first. *)
Definition begin_id (k : strategy) (s : step) : string :=
  match s with
  | Setup => "Setting up order execution"
  | Erc20 => "ERC20"
  | TransferManager => "Transfer manager"
  | Referral => "Divvi referral setup"
  | Execution =>
      match k with
      | SafeQueue => "Submitting order"
      | _ => "Awaiting buy signature"
      end
  end.

Definition begins (k : strategy) (s : step) : event :=
  SetDialogStep (begin_id k s) None None.

(** ** Predicates on events and traces *)



(** [executeOrder] or [executeOrderSafe]. *)
Definition is_execute (e : event) : bool :=
  match e with
  | ExecuteOrder _ _ _ _ _ | ExecuteOrderSafe _ _ _ _ _ _ => true
  | _ => false
  end.

Definition is_wait (e : event) : bool :=
  match e with
  | WaitForTransactionReceipt _ _ _ _ => true
  | _ => false
  end.

Definition is_approve (e : event) : bool :=
  match e with
  | ApproveErc20 _ _ _ _ | ApproveErc20Safe _ _ _ _ => true
  | _ => false
  end.


Definition is_sign (e : event) : bool :=
  match e with
  | SignMessage _ _ => true
  | _ => false
  end.

Definition is_submit (e : event) : bool :=
  match e with
  | SubmitReferral _ _ _ _ => true
  | _ => false
  end.

Definition is_rejected {A} (r : outcome A) : bool :=
  match r with Rejected _ => true | Resolved _ => false end.

(** [setDialogStep(id, "error", message)] *)
Definition reports_error (id : string) (e : event) : bool :=
  match e with
  | SetDialogStep id' (Some status) (Some _) =>
      (id' =? id)%string && (status =? "error")%string
  | _ => false
  end.

(** The ways in which [execute] tells that the purchase went through. *)
Definition reports_success (e : event) : bool :=
  match e with
  | EmitHash _ | SetExtraContent _ => true
  | SetDialogStep _ (Some status) _ => (status =? "completed")%string
  | _ => false
  end.

(** The last event of a trace satisfies [P]. *)
Definition ends_with (P : event -> bool) (tr : trace) : bool :=
  match rev tr with
  | e :: _ => P e
  | [] => false
  end.

(** Two neighbouring events of the trace are related by [R]. *)
Fixpoint adjacent (R : event -> event -> bool) (tr : trace) : bool :=
  match tr with
  | a :: (b :: _) as tl => R a b || adjacent R tl
  | _ => false
  end.

(** The trace starts with the events [l] (compared by [same]). *)
Fixpoint starts_with (same : event -> event -> bool) (l tr : trace) : bool :=
  match l, tr with
  | [], _ => true
  | a :: l', b :: tr' => same a b && starts_with same l' tr'
  | _ :: _, [] => false
  end.

(** *** The fixed order of the steps *)



Definition announces (k : strategy) (s : step) (e : event) : bool :=
  match e with
  | SetDialogStep id None None => (id =? begin_id k s)%string
  | _ => false
  end.


(** *** Checking a property at every position of a trace *)
Fixpoint check_all (G : trace -> event -> trace -> bool) (pre tr : trace)
  : bool :=
  match tr with
  | [] => true
  | e :: post => G pre e post && check_all G (pre ++ [e])%list post
  end.

(** *** Transfer-manager approval before the order *)

Definition approved_already (e : event) : bool :=
  match e with
  | IsTransferManagerApproved (Resolved true)
  | IsTransferManagerApprovedSafe _ (Resolved true) => true
  | _ => false
  end.

Definition grant_called (e : event) : bool :=
  match e with
  | GrantTransferManagerApproval _ => true
  | _ => false
  end.

Definition grant_queued (e : event) : bool :=
  match e with
  | GrantTransferManagerApprovalSafe _ (Resolved _) => true
  | _ => false
  end.

(** [grantTransferManagerApproval().call()] resolved with a transaction
    whose receipt was then awaited and obtained (and, when [need_success],
    has status "success"). *)
Definition granted_and_confirmed (need_success : bool) (a b : event) : bool :=
  match a, b with
  | GrantTransferManagerApproval (Resolved tx),
    WaitForTransactionReceipt h _ _ (Resolved rc) =>
      (h =? tx_hash tx)%string && implb need_success (is_success rc)
  | _, _ => false
  end.

(** What must have happened before the order is executed. *)
Definition cleared (k : strategy) (isInFarcaster : bool) (pre : trace)
  : bool :=
  match k with
  | SafeQueue => existsb approved_already pre || existsb grant_queued pre
  | PlainEOA =>
      existsb approved_already pre
      || adjacent (granted_and_confirmed false) pre
  | FrontendEOA =>
      if isInFarcaster then existsb grant_called pre
      else existsb approved_already pre
           || adjacent (granted_and_confirmed true) pre
  end.

(** *** The end of the order-execution step *)

(** [executeOrder] resolved with a transaction, "Awaiting confirmation" was
    set, and the receipt of that transaction was awaited and obtained. *)
Fixpoint bought_and_confirmed (tr : trace) : bool :=
  match tr with
  | [] => false
  | a :: tl =>
      match a, tl with
      | ExecuteOrder _ _ _ _ (Resolved tx),
        SetDialogStep id None None
        :: WaitForTransactionReceipt h None None (Resolved _) :: _ =>
          (id =? "Awaiting confirmation")%string && (h =? tx_hash tx)%string
      | _, _ => false
      end
      || bought_and_confirmed tl
  end.



(** ** Reasoning about a run: the outcome of [m] from [s] satisfies [Q] *)
Definition sat {A} (m : M A) (w : World) (s : state)
    (Q : state -> outcome A -> Prop) : Prop :=
  Q (fst (m w s)) (snd (m w s)).

(** The postcondition to establish for [m] so that [bind m k] satisfies
    [Q]. *)
Definition after {A B} (k : A -> M B) (w : World)
    (Q : state -> outcome B -> Prop) : state -> outcome A -> Prop :=
  fun s r =>
    match r with
    | Resolved a => sat (k a) w s Q
    | Rejected e => Q s (Rejected e)
    end.

(** The same for [try_catch m h]. *)
Definition caught {A} (h : thrown -> M A) (w : World)
    (Q : state -> outcome A -> Prop) : state -> outcome A -> Prop :=
  fun s r =>
    match r with
    | Resolved a => Q s (Resolved a)
    | Rejected e => sat (h e) w s Q
    end.

(** ** Example runs *)
Module Example.

(** [BigInt] on decimal literals. *)
Definition decimal_BigInt (s : string) : option Z :=
  option_map Z.of_int (NilZero.int_of_string s).

Definition cUSD : Currency :=
  mkCurrency "0x765DE816845861e75A25fCA122bb6898B8B1282a" "cUSD" 18.

Definition celo : Currency := mkCurrency zeroAddress "CELO" 18.

Definition browser : option Window :=
  Some (mkWindow "Mozilla/5.0 (X11; Linux x86_64)" "app.example.org" false).

Definition miniapp : option Window :=
  Some (mkWindow "Mozilla/5.0 (iPhone) Farcaster/1.0" "app.example.org" true).

(** A world in which every call resolves: the wallet holds [allowance] of
    the currency [currency], the transfer manager is approved or not, and
    every transaction is mined with success. *)
Definition resolving (window : option Window) (currency : Currency)
    (allowance : Z) (approved : bool) : World :=
  mkWorld window decimal_BigInt (fun _ dflt => dflt) [42220; 8453]
    (fun _ _ _ => Resolved (Some currency))
    (fun _ _ address _ _ => Resolved (mkTaker address "0x"))
    (fun _ _ => Resolved allowance)
    (fun _ _ _ _ => Resolved (mkTx "0xa1"))
    (fun _ _ _ _ => Resolved tt)
    (fun _ hash _ _ => Resolved (mkReceipt success hash))
    (fun _ => Resolved approved)
    (fun _ _ => Resolved approved)
    (fun _ => Resolved (mkTx "0xb2"))
    (fun _ _ => Resolved tt)
    (fun _ _ _ => Resolved "tag-7f")
    (fun _ => 1750000000000)
    (fun _ _ => Resolved "0x5162")
    (fun _ _ _ _ _ => Resolved (mkTx "0xc3"))
    (fun _ _ _ _ _ _ => Resolved tt)
    (fun _ _ _ _ => Resolved tt).

(** A world in which every call is rejected by the user or the network. *)
Definition rejecting (window : option Window) : World :=
  let no {A} : outcome A := Rejected (JsError "user rejected the request") in
  mkWorld window decimal_BigInt (fun _ dflt => dflt) [42220; 8453]
    (fun _ _ _ => no) (fun _ _ _ _ _ => no) (fun _ _ => no)
    (fun _ _ _ _ => no) (fun _ _ _ _ => no) (fun _ _ _ _ => no)
    (fun _ => no) (fun _ _ => no) (fun _ => no) (fun _ _ => no)
    (fun _ _ _ => no) (fun _ => 1750000000000) (fun _ _ => no)
    (fun _ _ _ _ _ => no) (fun _ _ _ _ _ _ => no) (fun _ _ _ _ => no).


Definition this : Strategy :=
  mkStrategy true (Some 42220) true
    "0x1111111111111111111111111111111111111111".

Definition order : MarketplaceOrder :=
  mkOrder 42220 "0x765DE816845861e75A25fCA122bb6898B8B1282a" "250" "0x5e11"
    "order-17" "42220-0x16bA53B74c234C870c61EFC04cD418B8f2865959-340".

Definition args : Args := mkArgs 40 "250" (Some "River cleanup") (Some 1000).

(** The world [w], except that every receipt comes back reverted. *)
Definition reverting (w : World) : World :=
  mkWorld (w_window w) (w_BigInt w) (w_decodeContractError w)
    (w_SUPPORTED_CHAINS w) (w_getCurrencyByAddress w)
    (w_createFractionalSaleTakerBid w) (w_getERC20Allowance w)
    (w_approveErc20 w) (w_approveErc20Safe w)
    (fun _ hash _ _ => Resolved (mkReceipt reverted hash))
    (w_isTransferManagerApproved w) (w_isTransferManagerApprovedSafe w)
    (w_grantTransferManagerApproval w) (w_grantTransferManagerApprovalSafe w)
    (w_getReferralTag w) (w_now w) (w_signMessage w)
    (w_executeOrder w) (w_executeOrderSafe w) (w_submitReferral w).

(** The world [w], except that [approveErc20] fails with the message
    [m]. *)
Definition failing_approval (m : string) (w : World) : World :=
  mkWorld (w_window w) (w_BigInt w) (w_decodeContractError w)
    (w_SUPPORTED_CHAINS w) (w_getCurrencyByAddress w)
    (w_createFractionalSaleTakerBid w) (w_getERC20Allowance w)
    (fun _ _ _ _ => Rejected (JsError m)) (w_approveErc20Safe w)
    (w_waitForTransactionReceipt w)
    (w_isTransferManagerApproved w) (w_isTransferManagerApprovedSafe w)
    (w_grantTransferManagerApproval w) (w_grantTransferManagerApprovalSafe w)
    (w_getReferralTag w) (w_now w) (w_signMessage w)
    (w_executeOrder w) (w_executeOrderSafe w) (w_submitReferral w).

(** The world [w], except that the wallet refuses the buy transaction. *)
Definition refusing_order (w : World) : World :=
  mkWorld (w_window w) (w_BigInt w) (w_decodeContractError w)
    (w_SUPPORTED_CHAINS w) (w_getCurrencyByAddress w)
    (w_createFractionalSaleTakerBid w) (w_getERC20Allowance w)
    (w_approveErc20 w) (w_approveErc20Safe w) (w_waitForTransactionReceipt w)
    (w_isTransferManagerApproved w) (w_isTransferManagerApprovedSafe w)
    (w_grantTransferManagerApproval w) (w_grantTransferManagerApprovalSafe w)
    (w_getReferralTag w) (w_now w) (w_signMessage w)
    (fun _ _ _ _ _ => Rejected (JsError "User rejected the request."))
    (w_executeOrderSafe w) (w_submitReferral w).

(** The state [s] as it was after its first [n] events; for a step that
    assigns to no variable, the state in which the step began. *)
Definition rewind (n : nat) (s : state) : state :=
  mkState (firstn n (st_trace s)) (st_order s) (st_currency s)
    (st_takerOrder s) (st_referralTag s) (st_signedMessage s)
    (st_referralSignature s).

(** A browser run in which the allowance suffices, the transfer manager is
    approved, and the wallet refuses the buy transaction; and the state of
    that run when the order-execution step begins, after 13 events. *)
Definition order_refused : World :=
  refusing_order (resolving browser cUSD 20000 true).

Definition before_order : state :=
  rewind 13 (fst (run FrontendEOA this order args order_refused)).

(** The trace of a run cut at its [n]-th event. *)
Definition before (n : nat) (tr : trace) : trace := firstn n tr.
Definition at_ (n : nat) (tr : trace) : event := nth n tr (SetOpen false).
Definition behind (n : nat) (tr : trace) : trace := skipn (S n) tr.

End Example.

(** [setDialogStep("Awaiting confirmation", "completed")] *)
Definition marks_completed (e : event) : bool :=
  match e with
  | SetDialogStep id (Some status) None =>
      (id =? "Awaiting confirmation")%string
      && (status =? "completed")%string
  | _ => false
  end.

(** [setDialogStep("Transaction queued")] *)
Definition marks_queued (e : event) : bool :=
  match e with
  | SetDialogStep id None None => (id =? "Transaction queued")%string
  | _ => false
  end.

(** [executeOrderSafe] resolved. *)
Definition safe_submitted (e : event) : bool :=
  match e with
  | ExecuteOrderSafe _ _ _ _ _ (Resolved _) => true
  | _ => false
  end.

(** *** The order object is only read *)

(** [m] never assigns to the order object. *)
Definition keeps_order {A} (m : M A) : Prop :=
  forall w s, st_order (fst (m w s)) = st_order s.

(** The order a call hands to the SDK. *)
Definition order_in (e : event) : option MarketplaceOrder :=
  match e with
  | CreateFractionalSaleTakerBid o _ _ _ _ | ExecuteOrder o _ _ _ _
  | ExecuteOrderSafe _ o _ _ _ _ => Some o
  | _ => None
  end.

(** *** When the referral fails *)

(** The first of the events [post] satisfies [P]. *)
Definition next_is (P : event -> bool) (post : trace) : bool :=
  match post with
  | e :: _ => P e
  | [] => false
  end.


(** *** The referral *)





(** *** Currency approval *)












(** *** The environment *)

(** The claim as the specification words it: every step behaves
    differently inside and outside the mini-app host. *)
Definition every_step_depends_on_environment : Prop :=
  forall s : step, exists this args cur total w st,
    run_step FrontendEOA this args true cur total s w st
    <> run_step FrontendEOA this args false cur total s w st.

(** The world [w] seen through another window. *)
Definition with_window (window : option Window) (w : World) : World :=
  mkWorld window (w_BigInt w) (w_decodeContractError w)
    (w_SUPPORTED_CHAINS w) (w_getCurrencyByAddress w)
    (w_createFractionalSaleTakerBid w) (w_getERC20Allowance w)
    (w_approveErc20 w) (w_approveErc20Safe w) (w_waitForTransactionReceipt w)
    (w_isTransferManagerApproved w) (w_isTransferManagerApprovedSafe w)
    (w_grantTransferManagerApproval w) (w_grantTransferManagerApprovalSafe w)
    (w_getReferralTag w) (w_now w) (w_signMessage w)
    (w_executeOrder w) (w_executeOrderSafe w) (w_submitReferral w).

(** [m] does not look at the window. *)
Definition ignores_window {A} (m : M A) : Prop :=
  forall window w s, m (with_window window w) s = m w s.

(** *** Truncation *)

(** The first [p] and the last [q] code units of [s], with an ellipsis in
    between. *)
Definition cut (p q : nat) (s : string) : string :=
  String.substring 0 p s ++ "..."
  ++ String.substring (String.length s - q) q s.

(** The length that the specification promises for a truncated text. *)
Definition truncated_length_as_claimed (s : string) (length : Z) : Prop :=
  JsString.len s > 2 * length ->
  JsString.len (Utils.truncateText s length) = 2 * length + 3.

(** *** What a run calls, and how often *)

(** A [setDialogStep] on an id of the published list of steps. *)
Definition declared (k : strategy) (e : event) : bool :=
  match e with
  | SetDialogStep id _ _ =>
      existsb (String.eqb id) (map fst (steps_of k))
  | _ => true
  end.

Definition count (P : event -> bool) (tr : trace) : nat :=
  List.length (filter P tr).

Definition is_grant (e : event) : bool :=
  match e with
  | GrantTransferManagerApproval _ | GrantTransferManagerApprovalSafe _ _ =>
      true
  | _ => false
  end.

(** Approval, grant, order, signature and referral: each sent at most
    once. *)
Definition each_at_most_once (tr : trace) : bool :=
  (count is_approve tr <=? 1)%nat && (count is_grant tr <=? 1)%nat
  && (count is_execute tr <=? 1)%nat && (count is_sign tr <=? 1)%nat
  && (count is_submit tr <=? 1)%nat.

(** [execute] does not end with a thrown value that is not an [Error]. *)
Definition ends_with_Error_or_returns (r : outcome unit) : bool :=
  match r with
  | Rejected (JsValue _ _) => false
  | _ => true
  end.

Definition taker_eqb (a b : Taker) : bool :=
  (taker_recipient a =? taker_recipient b)%string
  && (taker_additionalParameters a =? taker_additionalParameters b)%string.

(** [createFractionalSaleTakerBid] resolved with the bid [t], for the
    recipient [address] and [units] units. *)
Definition created (address units : string) (t : Taker) (e : event) : bool :=
  match e with
  | CreateFractionalSaleTakerBid _ a u _ (Resolved t') =>
      (a =? address)%string && (u =? units)%string && taker_eqb t' t
  | _ => false
  end.

(** The order is executed with the bid built in the set-up step and with
    the signature of the order. *)
Definition hands_over (this : Strategy) (order : MarketplaceOrder)
    (args : Args) (pre : trace) (e : event) : bool :=
  match e with
  | ExecuteOrder _ taker sg _ _ | ExecuteOrderSafe _ _ taker sg _ _ =>
      match taker with
      | Some t =>
          existsb (created (this_address this) (toString (unitAmount args)) t)
            pre
      | None => false
      end
      && (sg =? order_signature order)%string
  | _ => true
  end.

(** The receipt of the buy transaction: the one awaited right after
    "Awaiting confirmation" was set. *)
Definition awaiting_confirmation (e : event) : bool :=
  match e with
  | SetDialogStep id None None => (id =? "Awaiting confirmation")%string
  | _ => false
  end.

Definition buy_receipt (pre : trace) (e : event) : bool :=
  match e with
  | WaitForTransactionReceipt _ None None (Resolved _) =>
      ends_with awaiting_confirmation pre
  | _ => false
  end.

(** The failures that the mini-app host puts up with. *)
Definition tolerated_approval (err : thrown) : bool :=
  match Shared.message_of err with
  | Some m =>
      JsString.includes m "allowance" || JsString.includes m "approved"
      || JsString.includes m "insufficient"
  | None => false
  end.

Definition tolerated_grant (err : thrown) : bool :=
  JsString.includes (error_message err) "approved"
  || JsString.includes (error_message err) "already".

(** After a failed [approveErc20] or [grantTransferManagerApproval] of the
    EOA strategy with environment detection: in the host a tolerated
    failure is followed by the next step, every other failure by the error
    report of the step. *)
Definition failure_followed (far : bool) (e : event) (post : trace) : bool :=
  match e with
  | ApproveErc20 _ _ _ (Rejected err) =>
      if far && tolerated_approval err
      then next_is (announces FrontendEOA TransferManager) post
      else next_is (reports_error "ERC20") post
  | GrantTransferManagerApproval (Rejected err) =>
      if far && tolerated_grant err
      then next_is (announces FrontendEOA Referral) post
      else next_is (reports_error "Transfer manager") post
  | _ => true
  end.

(** The message of the guard that stops [execute]. *)
Definition guard_message (this : Strategy) : string :=
  if negb (this_exchangeClient this) then "No client"
  else if falsy_chainId (this_chainId this) then "No chain id"
  else "No wallet client data".

(** The dialog is closed only before anything else has happened. *)
Definition closes_only_first (pre : trace) (e : event) : bool :=
  match e with
  | SetOpen false => match pre with [] => true | _ => false end
  | _ => true
  end.

(** ** [calculateBigIntPercentage] (both EOA files) *)
Module Percentage.

(** An argument: [bigint | string | null | undefined]. *)
Inductive amount : Type :=
| Big (z : Z)
| Str (s : string)
| Null
| Undefined.

(** [!x] *)
Definition falsy (x : amount) : bool :=
  match x with
  | Big z => z =? 0
  | Str s => JsString.falsy s
  | Null | Undefined => true
  end.

(** [BigInt(x)] of an argument that is not null or undefined; a string is
    read by [parse], which fails on what is not an integer literal. *)
Definition toBigInt (parse : string -> option Z) (x : amount) : outcome Z :=
  match x with
  | Big z => Resolved z
  | Str s =>
      match parse s with
      | Some z => Resolved z
      | None => Rejected (JsError ("Cannot convert " ++ s ++ " to a BigInt"))
      end
  | Null => Rejected (JsError "Cannot convert null to a BigInt")
  | Undefined => Rejected (JsError "Cannot convert undefined to a BigInt")
  end.

Definition precision : Z := 10 ^ 18.

(** The result stands for the number [Number(q) / precision], where [q] is
    the bigint quotient computed here; [None] is [undefined].  The
    division of bigints truncates, and throws on a zero divisor. *)
Definition calculateBigIntPercentage (parse : string -> option Z)
    (numerator denominator : amount) : outcome (option Z) :=
  if falsy numerator || falsy denominator then Resolved None
  else
    match toBigInt parse numerator with
    | Rejected e => Rejected e
    | Resolved numeratorBigInt =>
        match toBigInt parse denominator with
        | Rejected e => Rejected e
        | Resolved denominatorBigInt =>
            if denominatorBigInt =? 0
            then Rejected (JsError "Division by zero")
            else Resolved
                   (Some (Z.quot (numeratorBigInt * 100 * precision)
                            denominatorBigInt))
        end
    end.

End Percentage.

(** ** The link helpers of [lib/utils.ts] *)
Module Links.

(** The fields of a [Chain] that the helpers read;
    [chain_explorer] is [blockExplorers?.default.url]. *)
Record Chain : Type := mkChain {
  chain_id : Z;
  chain_name : string;
  chain_explorer : option string
}.

Definition getSafeChainAbbreviation (chain : option Chain) : string :=
  match chain with
  | None => ""
  | Some c =>
      if chain_id c =? 11155111 then "sep"
      else if chain_id c =? 8453 then "base"
      else if chain_id c =? 10 then "oeth"
      else if chain_id c =? 84532 then "basesep"
      else if chain_id c =? 42220 then "celo"
      else if chain_id c =? 42161 then "arb1"
      else chain_name c
  end.

Definition generateSafeAppLink (chain : option Chain) (safeAddress : string)
  : string :=
  match chain with
  | None => ""
  | Some _ =>
      "https://app.safe.global/transactions/queue?safe="
      ++ getSafeChainAbbreviation chain ++ ":" ++ safeAddress
  end.

(** A template literal renders a missing value as "undefined". *)
Definition render (x : option string) : string :=
  match x with
  | Some s => s
  | None => "undefined"
  end.

Definition getBlockExplorerPath (chain : option Chain) : string :=
  match chain with
  | None => ""
  | Some c =>
      if chain_id c =? 1 then "https://etherscan.io"
      else if chain_id c =? 10 then "https://optimistic.etherscan.io"
      else if chain_id c =? 8453 then "https://basescan.org"
      else if chain_id c =? 42220 then "https://celoscan.io"
      else if chain_id c =? 42161 then "https://arbiscan.io"
      else render (chain_explorer c)
  end.

Definition generateBlockExplorerLink (chain : option Chain)
    (transactionHash : string) : string :=
  match chain with
  | None => ""
  | Some _ => getBlockExplorerPath chain ++ "/tx/" ++ transactionHash
  end.

(** The chain ids that [getSafeChainAbbreviation] knows. *)
Definition safe_chains : list Z :=
  [11155111; 8453; 10; 84532; 42220; 42161].

(** The chain ids that [getBlockExplorerPath] knows. *)
Definition explorer_chains : list Z := [1; 10; 8453; 42220; 42161].

End Links.

(** ** Regular expressions, as far as [hypercertIdRegex] needs them *)
Module Regex.

Inductive re : Type :=
| Void
| Eps
| Cls (p : ascii -> bool)     (** one code unit of a class *)
| Cat (a b : re)
| Alt (a b : re)
| Star (a : re).

Fixpoint nullable (r : re) : bool :=
  match r with
  | Void => false
  | Eps => true
  | Cls _ => false
  | Cat a b => nullable a && nullable b
  | Alt a b => nullable a || nullable b
  | Star _ => true
  end.

(** What is left of [r] after the code unit [c]. *)
Fixpoint deriv (c : ascii) (r : re) : re :=
  match r with
  | Void => Void
  | Eps => Void
  | Cls p => if p c then Eps else Void
  | Cat a b =>
      if nullable a then Alt (Cat (deriv c a) b) (deriv c b)
      else Cat (deriv c a) b
  | Alt a b => Alt (deriv c a) (deriv c b)
  | Star a => Cat (deriv c a) (Star a)
  end.

(** [/^r$/.test(s)] *)
Fixpoint test (r : re) (s : string) : bool :=
  match s with
  | EmptyString => nullable r
  | String c s' => test (deriv c r) s'
  end.

(** [r+] *)
Definition plus (r : re) : re := Cat r (Star r).

(** [r{n}] *)
Fixpoint power (n : nat) (r : re) : re :=
  match n with
  | O => Eps
  | S n' => Cat r (power n' r)
  end.

(** [r{0,n}] *)
Fixpoint upto (n : nat) (r : re) : re :=
  match n with
  | O => Eps
  | S n' => Alt Eps (Cat r (upto n' r))
  end.

(** [r{n,m}] *)
Definition between (n m : nat) (r : re) : re :=
  Cat (power n r) (upto (m - n) r).

(** A literal text. *)
Fixpoint lit (s : string) : re :=
  match s with
  | EmptyString => Eps
  | String c s' => Cat (Cls (Ascii.eqb c)) (lit s')
  end.

Definition in_range (lo hi : nat) (c : ascii) : bool :=
  (Nat.leb lo (nat_of_ascii c) && Nat.leb (nat_of_ascii c) hi)%bool.

(** [\d] *)
Definition digit (c : ascii) : bool := in_range 48 57 c.

(** [[a-fA-F0-9]] *)
Definition hex (c : ascii) : bool :=
  in_range 97 102 c || in_range 65 70 c || in_range 48 57 c.

(** The strings of a regular expression. *)
Inductive lang : re -> string -> Prop :=
| lang_eps : lang Eps ""
| lang_cls : forall p c, p c = true -> lang (Cls p) (String c "")
| lang_cat : forall a b s t,
    lang a s -> lang b t -> lang (Cat a b) (s ++ t)
| lang_alt_l : forall a b s, lang a s -> lang (Alt a b) s
| lang_alt_r : forall a b s, lang b s -> lang (Alt a b) s
| lang_star_0 : forall a, lang (Star a) ""
| lang_star_S : forall a s t,
    lang a s -> lang (Star a) t -> lang (Star a) (s ++ t).

(** Every code unit of [s] is in the class [p]. *)
Fixpoint all (p : ascii -> bool) (s : string) : bool :=
  match s with
  | EmptyString => true
  | String c s' => p c && all p s'
  end.

End Regex.

(** ** [hypercertIdRegex], [isValidHypercertId] ([lib/utils.ts]) and
    [getHypercert] ([unnamed/part_002]) *)
Module HypercertId.
Import Regex.

(** [/^\d+-0x[a-fA-F0-9]{39,42}-\d{39,42}$/] *)
Definition hypercertIdRegex : re :=
  Cat (plus (Cls digit))
    (Cat (lit "-0x")
       (Cat (between 39 42 (Cls hex))
          (Cat (lit "-") (between 39 42 (Cls digit))))).

Definition isValidHypercertId (hypercertId : string) : bool :=
  test hypercertIdRegex hypercertId.

Definition dash : ascii := "-"%char.

(** [s.split(sep)] for a separator of one code unit. *)
Fixpoint split (sep : ascii) (s : string) : list string :=
  match s with
  | EmptyString => [EmptyString]
  | String c s' =>
      if Ascii.eqb c sep then EmptyString :: split sep s'
      else
        match split sep s' with
        | h :: t => String c h :: t
        | [] => [String c EmptyString]
        end
  end.

(** [res.hypercerts?.data?.[0]]: the list of the answer may be missing, and
    so may its entries. *)
Definition Response (F : Type) : Type := option (option (list (option F))).

Definition first_fragment {F} (res : Response F) : option F :=
  match res with
  | Some (Some (x :: _)) => x
  | _ => None
  end.

(** What [getHypercert] calls: [getAddress] and [isAddress] of the chain
    library, and the GraphQL [request]. *)
Record World (F : Type) : Type := mkWorld {
  getAddress : string -> outcome string;
  isAddress : string -> bool;
  request : string -> outcome (Response F)
}.
Arguments getAddress {F} _ _.
Arguments isAddress {F} _ _.
Arguments request {F} _ _.

Inductive effect : Type :=
| ConsoleError (message : string)
| Request (hypercert_id : string).

(** A part of the destructured [split]: missing or empty is falsy. *)
Definition falsy_part (p : option string) : bool :=
  match p with
  | None => true
  | Some s => JsString.falsy s
  end.

Definition part (p : option string) : string :=
  match p with Some s => s | None => "" end.

Definition getHypercert {F} (w : World F) (hypercertId : string)
  : list effect * outcome (option F) :=
  let parts := split dash hypercertId in
  let chainId := nth_error parts 0 in
  let contractAddress := nth_error parts 1 in
  let tokenId := nth_error parts 2 in
  if falsy_part chainId || falsy_part contractAddress || falsy_part tokenId
  then ([ConsoleError "Invalid hypercertId"], Resolved None)
  else
    match getAddress w (part contractAddress) with
    | Rejected e => ([], Rejected e)
    | Resolved _contractAddress =>
        if negb (isAddress w _contractAddress)
        then ([ConsoleError "Invalid address"], Resolved None)
        else
          let id :=
            part chainId ++ "-" ++ _contractAddress ++ "-" ++ part tokenId in
          match request w id with
          | Rejected e => ([Request id], Rejected e)
          | Resolved res => ([Request id], Resolved (first_fragment res))
          end
    end.

End HypercertId.

(** *** Where a failing step reports *)





(** * Properties *)

(** ** Rules of the run logic *)

Lemma sat_bind {A B} (m : M A) (k : A -> M B) w s Q :
  sat m w s (after k w Q) -> sat (bind m k) w s Q.
Proof.
  unfold sat, after, bind. destruct (m w s) as [s' [a|e]]; simpl; auto.
Qed.

Lemma sat_try {A} (m : M A) h w s Q :
  sat m w s (caught h w Q) -> sat (try_catch m h) w s Q.
Proof.
  unfold sat, caught, try_catch. destruct (m w s) as [s' [a|e]]; simpl; auto.
Qed.

Lemma sat_ret {A} (a : A) w s (Q : state -> outcome A -> Prop) :
  Q s (Resolved a) -> sat (ret a) w s Q.
Proof. auto. Qed.

Lemma sat_throw {A} e w s (Q : state -> outcome A -> Prop) :
  Q s (Rejected e) -> sat (throw e) w s Q.
Proof. auto. Qed.

Lemma sat_emit ev w s Q :
  Q (push_event ev s) (Resolved tt) -> sat (emit ev) w s Q.
Proof. auto. Qed.

(** Whatever the world answers. *)
Lemma sat_ask {A} q (record : outcome A -> event) w s Q :
  (forall r, Q (push_event (record r) s) r) -> sat (ask q record) w s Q.
Proof. unfold sat, ask. simpl. auto. Qed.

Lemma sat_now w s Q :
  (forall t, Q (push_event (DateNow t) s) (Resolved t)) ->
  sat Shared.now w s Q.
Proof. unfold sat, Shared.now. simpl. auto. Qed.

Lemma sat_gets {A} (f : state -> A) w s Q :
  Q s (Resolved (f s)) -> sat (gets f) w s Q.
Proof. auto. Qed.

Lemma sat_world {A} (f : World -> A) w s Q :
  Q s (Resolved (f w)) -> sat (world f) w s Q.
Proof. auto. Qed.

Lemma sat_modify f w s Q :
  Q (f s) (Resolved tt) -> sat (modify f) w s Q.
Proof. auto. Qed.

Lemma sat_BigInt x w s Q :
  (forall z, w_BigInt w x = Some z -> Q s (Resolved z)) ->
  (w_BigInt w x = None ->
   Q s (Rejected (JsError ("Cannot convert " ++ x ++ " to a BigInt")))) ->
  sat (Shared.BigInt x) w s Q.
Proof.
  unfold sat, Shared.BigInt. intros H1 H2.
  destruct (w_BigInt w x); simpl; auto.
Qed.

Lemma run_sat k this order args w (Q : state -> outcome unit -> Prop) :
  sat (execute k this args) w (initial_state order) Q ->
  Q (fst (run k this order args w)) (snd (run k this order args w)).
Proof. auto. Qed.

(** Symbolic execution of a strategy, one statement at a time. *)
Ltac red_state :=
  cbn [initial_state push_event assign_currency assign_takerOrder
       assign_referralTag assign_signedMessage assign_referralSignature
       st_trace st_order st_currency st_takerOrder st_referralTag
       st_signedMessage st_referralSignature app after caught].

Ltac head_of m :=
  lazymatch m with
  | ?f _ => head_of f
  | _ => constr:(m)
  end.

Ltac impossible E := try solve [cbn in E; discriminate E].

Ltac wp_step :=
  lazymatch goal with
  | |- sat (bind _ _) _ _ _ => apply sat_bind
  | |- sat (try_catch _ _) _ _ _ => apply sat_try
  | |- sat (ret _) _ _ _ => apply sat_ret; red_state
  | |- sat (throw _) _ _ _ => apply sat_throw; red_state
  | |- sat (emit _) _ _ _ => apply sat_emit; red_state
  | |- sat (ask _ _) _ _ _ =>
      apply sat_ask; let r := fresh "r" in intros [r|r]; red_state
  | |- sat Shared.now _ _ _ => apply sat_now; intros ?; red_state
  | |- sat (gets _) _ _ _ => apply sat_gets; red_state
  | |- sat (world _) _ _ _ => apply sat_world; red_state
  | |- sat (modify _) _ _ _ => apply sat_modify; red_state
  | |- sat (Shared.BigInt _) _ _ _ =>
      apply sat_BigInt; [intros ? ?|intros ?]; red_state
  | |- sat (when ?b _) _ _ _ =>
      let E := fresh "E" in destruct b eqn:E; impossible E; unfold when
  | |- sat (if ?b then _ else _) _ _ _ =>
      let E := fresh "E" in destruct b eqn:E; impossible E
  | |- sat (match ?x with _ => _ end) _ _ _ =>
      let E := fresh "E" in destruct x eqn:E; impossible E
  | |- sat ?m _ _ _ => let h := head_of m in unfold h; cbv beta iota
  end.

Ltac wp := repeat wp_step.

(** Use of the conditions met along a path. *)
Ltac path_facts :=
  repeat match goal with
  | H : negb _ = true |- _ => apply negb_true_iff in H
  | H : negb _ = false |- _ => apply negb_false_iff in H
  | H : (_ && _)%bool = true |- _ =>
      apply andb_true_iff in H; destruct H
  end;
  subst;
  repeat match goal with
  | H : _ = true |- _ => rewrite H
  | H : _ = false |- _ => rewrite H
  | H : _ = Some _ |- _ => rewrite H
  end.

Ltac close_path :=
  simpl; path_facts; simpl;
  rewrite ?String.eqb_refl, ?Z.eqb_refl, ?orb_true_r; simpl;
  try reflexivity.

(** ** Traces *)

Lemma check_all_sound G tr :
  forall acc, check_all G acc tr = true ->
  forall pre e post, tr = (pre ++ e :: post)%list ->
  G (acc ++ pre)%list e post = true.
Proof.
  induction tr as [|x tr IH]; intros acc H pre e post Heq.
  - destruct pre; discriminate.
  - simpl in H. apply andb_true_iff in H. destruct H as [H1 H2].
    destruct pre as [|y pre]; simpl in Heq; inversion Heq; subst.
    + now rewrite app_nil_r.
    + specialize (IH _ H2 pre e post eq_refl).
      now rewrite <- app_assoc in IH.
Qed.

Lemma check_all_holds G tr :
  check_all G [] tr = true ->
  forall pre e post, tr = (pre ++ e :: post)%list -> G pre e post = true.
Proof. intros H pre e post Heq. exact (check_all_sound G tr [] H pre e post Heq). Qed.

Lemma adjacent_spec R tr :
  adjacent R tr = true <->
  exists l1 a b l2, tr = (l1 ++ a :: b :: l2)%list /\ R a b = true.
Proof.
  split.
  - induction tr as [|a [|b tl] IH]; simpl; try discriminate.
    intros H. apply orb_true_iff in H. destruct H as [H|H].
    + exists [], a, b, tl. auto.
    + destruct (IH H) as (l1 & x & y & l2 & Heq & HR).
      exists (a :: l1), x, y, l2. split; [|exact HR].
      simpl. now rewrite <- Heq.
  - intros (l1 & x & y & l2 & Heq & HR). subst tr.
    induction l1 as [|c l1 IH]; simpl.
    + now rewrite HR.
    + destruct (l1 ++ x :: y :: l2)%list eqn:E.
      * destruct l1; discriminate.
      * rewrite IH. apply orb_true_r.
Qed.

Lemma ends_with_spec P tr :
  ends_with P tr = true <->
  exists pre e, tr = (pre ++ [e])%list /\ P e = true.
Proof.
  unfold ends_with. split.
  - destruct (rev tr) as [|e l] eqn:E; [discriminate|].
    intros H. exists (rev l), e. split; [|exact H].
    rewrite <- (rev_involutive tr), E. reflexivity.
  - intros (pre & e & -> & H). rewrite rev_app_distr. exact H.
Qed.

(** ** Transfer-manager approval comes before the order *)

Lemma transfer_manager_monitor k this order args w :
  let tr := trace_of k this order args w in
  check_all
    (fun pre e _ =>
       implb (is_execute e)
         (cleared k (EOA.isFarcasterEnvironment (w_window w)) pre)) [] tr
  = true
  /\ (existsb (reports_error "Transfer manager") tr = true ->
      is_rejected (result_of k this order args w) = true
      /\ forallb (fun e => negb (is_execute e)) tr = true).
Proof.
  unfold trace_of, result_of.
  apply (run_sat k this order args w (fun s r =>
    check_all
      (fun pre e _ =>
         implb (is_execute e)
           (cleared k (EOA.isFarcasterEnvironment (w_window w)) pre)) []
      (st_trace s) = true
    /\ (existsb (reports_error "Transfer manager") (st_trace s) = true ->
        is_rejected r = true
        /\ forallb (fun e => negb (is_execute e)) (st_trace s) = true))).
  destruct k; wp; (split; [close_path | simpl; try discriminate; auto]).
Qed.

(** C4.  In every run, when [executeOrder] (or [executeOrderSafe]) is
    called the events before it show the transfer manager cleared:
    [isTransferManagerApproved] answered true, or the approval was granted
    (and, for an EOA outside the mini-app host, its receipt obtained; in the
    mini-app host the grant was attempted).  And when the transfer-manager
    step reports an error, [execute] ends with an exception and never
    calls [executeOrder]. *)
Theorem order_executed_after_transfer_manager k this order args w :
  let tr := trace_of k this order args w in
  (forall pre e post,
      tr = (pre ++ e :: post)%list -> is_execute e = true ->
      cleared k (EOA.isFarcasterEnvironment (w_window w)) pre = true)
  /\ (existsb (reports_error "Transfer manager") tr = true ->
      is_rejected (result_of k this order args w) = true
      /\ forall e, In e tr -> is_execute e = false).
Proof.
  destruct (transfer_manager_monitor k this order args w) as [H1 H2].
  split.
  - intros pre e post Heq He.
    pose proof (check_all_holds _ _ H1 pre e post Heq) as H.
    simpl in H. now rewrite He in H.
  - intros Herr. destruct (H2 Herr) as [Hr Hf]. split; [exact Hr|].
    intros e He. rewrite forallb_forall in Hf.
    apply negb_true_iff. now apply Hf.
Qed.

Lemma order_executed_after_transfer_manager_witness :
  let tr :=
    trace_of FrontendEOA Example.this Example.order Example.args
      (Example.resolving Example.browser Example.cUSD 0 false) in
  tr = (Example.before 18 tr ++ Example.at_ 18 tr :: Example.behind 18 tr)%list
  /\ is_execute (Example.at_ 18 tr) = true
  /\ cleared FrontendEOA false (Example.before 18 tr) = true.
Proof.
  intros tr.
  assert (Heq : tr = (Example.before 18 tr ++ Example.at_ 18 tr
                      :: Example.behind 18 tr)%list) by (vm_compute; reflexivity).
  assert (He : is_execute (Example.at_ 18 tr) = true) by (vm_compute; reflexivity).
  split; [exact Heq|]. split; [exact He|].
  exact (proj1 (order_executed_after_transfer_manager FrontendEOA
                  Example.this Example.order Example.args
                  (Example.resolving Example.browser Example.cUSD 0 false))
           _ _ _ Heq He).
Defined.

(** ** How the two wallet kinds finish *)

Lemma eoa_monitor k this order args w :
  k <> SafeQueue ->
  let tr := trace_of k this order args w in
  check_all
    (fun pre e _ => implb (reports_success e) (bought_and_confirmed pre))
    [] tr = true
  /\ implb (negb (is_rejected (result_of k this order args w)))
       (existsb marks_completed tr) = true.
Proof.
  intros Hk. unfold trace_of, result_of.
  apply (run_sat k this order args w (fun s r =>
    check_all
      (fun pre e _ => implb (reports_success e) (bought_and_confirmed pre))
      [] (st_trace s) = true
    /\ implb (negb (is_rejected r)) (existsb marks_completed (st_trace s))
       = true)).
  destruct k; [| |congruence]; wp; (split; close_path).
Qed.

Lemma safe_monitor this order args w :
  let tr := trace_of SafeQueue this order args w in
  forallb (fun e => negb (is_wait e)) tr = true
  /\ check_all
       (fun pre e _ => implb (marks_queued e) (ends_with safe_submitted pre))
       [] tr = true
  /\ implb (negb (is_rejected (result_of SafeQueue this order args w)))
       (existsb marks_queued tr) = true.
Proof.
  unfold trace_of, result_of.
  apply (run_sat SafeQueue this order args w (fun s r =>
    forallb (fun e => negb (is_wait e)) (st_trace s) = true
    /\ check_all
         (fun pre e _ =>
            implb (marks_queued e) (ends_with safe_submitted pre))
         [] (st_trace s) = true
    /\ implb (negb (is_rejected r)) (existsb marks_queued (st_trace s))
       = true)).
  wp; (split; [|split]; close_path).
Qed.

(** C3.  An EOA strategy reports success (hash emitted, step "completed",
    final content shown) only after [executeOrder] resolved with a
    transaction, "Awaiting confirmation" was set and
    [waitForTransactionReceipt] resolved for that transaction; a run that
    returns normally has marked the step "completed".  The Safe strategy
    never calls [waitForTransactionReceipt]; it sets "Transaction queued"
    right after [executeOrderSafe] resolved, and a run that returns normally
    has set it. *)
Theorem wallets_terminate_differently this order args w :
  (forall k, k <> SafeQueue ->
     let tr := trace_of k this order args w in
     (forall pre e post,
         tr = (pre ++ e :: post)%list -> reports_success e = true ->
         bought_and_confirmed pre = true)
     /\ (result_of k this order args w = Resolved tt ->
         existsb marks_completed tr = true))
  /\ (let tr := trace_of SafeQueue this order args w in
      (forall e, In e tr -> is_wait e = false)
      /\ (forall pre e post,
             tr = (pre ++ e :: post)%list -> marks_queued e = true ->
             ends_with safe_submitted pre = true)
      /\ (result_of SafeQueue this order args w = Resolved tt ->
          existsb marks_queued tr = true)).
Proof.
  split.
  - intros k Hk. destruct (eoa_monitor k this order args w Hk) as [H1 H2].
    split.
    + intros pre e post Heq He.
      pose proof (check_all_holds _ _ H1 pre e post Heq) as H.
      simpl in H. now rewrite He in H.
    + intros Hr. rewrite Hr in H2. exact H2.
  - destruct (safe_monitor this order args w) as (H1 & H2 & H3).
    split; [|split].
    + intros e He. rewrite forallb_forall in H1.
      apply negb_true_iff. now apply H1.
    + intros pre e post Heq He.
      pose proof (check_all_holds _ _ H2 pre e post Heq) as H.
      simpl in H. now rewrite He in H.
    + intros Hr. rewrite Hr in H3. exact H3.
Qed.

Lemma wallets_terminate_differently_witness :
  let w := Example.resolving Example.browser Example.cUSD 0 false in
  let eoa := trace_of PlainEOA Example.this Example.order Example.args w in
  let safe := trace_of SafeQueue Example.this Example.order Example.args w in
  (reports_success (Example.at_ 22 eoa) = true
   /\ bought_and_confirmed (Example.before 22 eoa) = true
   /\ existsb marks_completed eoa = true)
  /\ (marks_queued (Example.at_ 17 safe) = true
      /\ ends_with safe_submitted (Example.before 17 safe) = true
      /\ existsb marks_queued safe = true).
Proof.
  intros w eoa safe.
  pose proof (wallets_terminate_differently Example.this Example.order
                Example.args w) as [He Hs].
  assert (Hk : PlainEOA <> SafeQueue) by discriminate.
  destruct (He PlainEOA Hk) as [He1 He2].
  destruct Hs as (_ & Hs2 & Hs3).
  assert (Q1 : reports_success (Example.at_ 22 eoa) = true)
    by (vm_compute; reflexivity).
  assert (Q2 : marks_queued (Example.at_ 17 safe) = true)
    by (vm_compute; reflexivity).
  split; [split; [exact Q1|split]|split; [exact Q2|split]].
  - apply (He1 (Example.before 22 eoa) (Example.at_ 22 eoa)
             (Example.behind 22 eoa)); [vm_compute; reflexivity|exact Q1].
  - apply He2. vm_compute. reflexivity.
  - apply (Hs2 (Example.before 17 safe) (Example.at_ 17 safe)
             (Example.behind 17 safe)); [vm_compute; reflexivity|exact Q2].
  - apply Hs3. vm_compute. reflexivity.
Defined.

(** ** The steps run in their fixed order *)





(** ** Every step reports its failure *)


(** The state [Example.before_order] is the one in which the run with the
    refused order begins its last step. *)
Lemma before_order_reached :
  run_step FrontendEOA Example.this Example.args false Example.cUSD 10000
    Execution Example.order_refused Example.before_order
  = run FrontendEOA Example.this Example.order Example.args
      Example.order_refused.
Proof. vm_compute. reflexivity. Qed.




(** ** The order is read, never written *)

Section Frame.
Context {A B : Type}.

Lemma keeps_ret (a : A) : keeps_order (ret a).
Proof. intros w s. reflexivity. Qed.

Lemma keeps_throw e : keeps_order (@throw A e).
Proof. intros w s. reflexivity. Qed.

Lemma keeps_bind (m : M A) (k : A -> M B) :
  keeps_order m -> (forall a, keeps_order (k a)) -> keeps_order (bind m k).
Proof.
  intros Hm Hk w s. unfold bind. specialize (Hm w s).
  destruct (m w s) as [s' [a|e]]; simpl in *; [|exact Hm].
  now rewrite Hk.
Qed.

Lemma keeps_try (m : M A) h :
  keeps_order m -> (forall e, keeps_order (h e)) ->
  keeps_order (try_catch m h).
Proof.
  intros Hm Hh w s. unfold try_catch. specialize (Hm w s).
  destruct (m w s) as [s' [a|e]]; simpl in *; [exact Hm|].
  now rewrite Hh.
Qed.

Lemma keeps_ask q (record : outcome A -> event) :
  keeps_order (ask q record).
Proof. intros w s. reflexivity. Qed.

Lemma keeps_gets (f : state -> A) : keeps_order (gets f).
Proof. intros w s. reflexivity. Qed.

Lemma keeps_world (f : World -> A) : keeps_order (world f).
Proof. intros w s. reflexivity. Qed.
End Frame.

Lemma keeps_emit ev : keeps_order (emit ev).
Proof. intros w s. reflexivity. Qed.

Lemma keeps_now : keeps_order Shared.now.
Proof. intros w s. reflexivity. Qed.

Lemma keeps_BigInt x : keeps_order (Shared.BigInt x).
Proof. intros w s. unfold Shared.BigInt. now destruct (w_BigInt w x). Qed.

(** An assignment to one of the [let] variables. *)
Lemma keeps_modify f :
  (forall s, st_order (f s) = st_order s) -> keeps_order (modify f).
Proof. intros H w s. apply H. Qed.

Lemma keeps_when b m : keeps_order m -> keeps_order (when b m).
Proof. intros H. destruct b; [exact H|apply keeps_ret]. Qed.

Ltac frame_step :=
  lazymatch goal with
  | |- keeps_order (bind _ _) => apply keeps_bind; [|intros ?]
  | |- keeps_order (try_catch _ _) => apply keeps_try; [|intros ?]
  | |- keeps_order (ret _) => apply keeps_ret
  | |- keeps_order (throw _) => apply keeps_throw
  | |- keeps_order (emit _) => apply keeps_emit
  | |- keeps_order (ask _ _) => apply keeps_ask
  | |- keeps_order Shared.now => apply keeps_now
  | |- keeps_order (gets _) => apply keeps_gets
  | |- keeps_order (world _) => apply keeps_world
  | |- keeps_order (modify _) => apply keeps_modify; intros ?; reflexivity
  | |- keeps_order (Shared.BigInt _) => apply keeps_BigInt
  | |- keeps_order (when _ _) => apply keeps_when
  | |- keeps_order (if ?b then _ else _) => destruct b
  | |- keeps_order (match ?x with _ => _ end) => destruct x
  | |- keeps_order ?m => let h := head_of m in unfold h; cbv beta iota
  end.

Lemma execute_keeps_order k this args : keeps_order (execute k this args).
Proof. destruct k; repeat frame_step. Qed.

Lemma orders_handed_over k this order args w :
  let final := fst (run k this order args w) in
  Forall (fun e => forall o, order_in e = Some o -> o = order)
    (st_trace final)
  /\ Forall (fun e => forall a b c,
                 e = GetCurrencyByAddress a b (Resolved c) ->
                 st_currency final = c)
       (st_trace final).
Proof.
  apply (run_sat k this order args w (fun s _ =>
    Forall (fun e => forall o, order_in e = Some o -> o = order) (st_trace s)
    /\ Forall (fun e => forall a b c,
                   e = GetCurrencyByAddress a b (Resolved c) ->
                   st_currency s = c)
         (st_trace s))).
  destruct k; wp;
    (split; repeat constructor; simpl; intros; congruence).
Qed.

(** C8.  Whatever the world answers and however [execute] ends, the order
    object is at the end what the caller passed, every call that receives
    the order receives that same order, and the currency variable holds
    the currency as it was looked up. *)
Theorem order_only_read k this order args w :
  let final := fst (run k this order args w) in
  st_order final = order
  /\ (forall e o,
         In e (st_trace final) -> order_in e = Some o -> o = order)
  /\ (forall a b c,
         In (GetCurrencyByAddress a b (Resolved c)) (st_trace final) ->
         st_currency final = c).
Proof.
  intros final.
  destruct (orders_handed_over k this order args w) as [H1 H2].
  split; [|split].
  - exact (execute_keeps_order k this args w (initial_state order)).
  - intros e o He. rewrite Forall_forall in H1. now apply H1.
  - intros a b c Hin. rewrite Forall_forall in H2.
    exact (H2 _ Hin a b c eq_refl).
Qed.

Lemma order_only_read_witness :
  let final :=
    fst (run FrontendEOA Example.this Example.order Example.args
           (Example.resolving Example.miniapp Example.cUSD 0 false)) in
  In (Example.at_ 4 (st_trace final)) (st_trace final)
  /\ order_in (Example.at_ 4 (st_trace final)) = Some Example.order
  /\ st_order final = Example.order.
Proof.
  intros final.
  pose proof (order_only_read FrontendEOA Example.this Example.order
                Example.args
                (Example.resolving Example.miniapp Example.cUSD 0 false))
    as (H1 & H2 & _).
  split; [vm_compute; auto 10|]. split; [vm_compute; reflexivity|].
  exact H1.
Defined.

(** ** A failing referral does not stop the purchase *)




(** ** The referral is signed off chain and submitted after the order *)

Lemma prefix_append t r : String.prefix t (t ++ r) = true.
Proof.
  induction t as [|c t IH]; simpl; [now destruct r|].
  destruct (ascii_dec c c); [exact IH|congruence].
Qed.

Lemma includes_here s t :
  String.prefix t s = true -> JsString.includes s t = true.
Proof. intros H. destruct s; cbn [JsString.includes]; now rewrite H. Qed.

Lemma includes_append_r p s t :
  JsString.includes s t = true -> JsString.includes (p ++ s) t = true.
Proof.
  intros H. induction p as [|c p IH]; [exact H|].
  cbn [append JsString.includes]. rewrite IH. apply orb_true_r.
Qed.


Lemma falsy_empty s : JsString.falsy s = false <-> s <> "".
Proof. destruct s; simpl; split; congruence. Qed.







(** ** Currency approval *)








(** ** Which steps look at the environment *)

(** C2, the claim as worded, fails: the set-up step never looks at the
    environment. *)
Lemma setup_ignores_environment : ~ every_step_depends_on_environment.
Proof.
  intros H. destruct (H Setup) as (this & args & cur & total & w & st & Hne).
  apply Hne. reflexivity.
Qed.

Lemma transfer_manager_first_call this args cur total w st :
  (exists r l,
      st_trace (fst (run_step FrontendEOA this args true cur total
                       TransferManager w st))
      = (st_trace st ++ begins FrontendEOA TransferManager
           :: GrantTransferManagerApproval r :: l)%list)
  /\ (exists r l,
         st_trace (fst (run_step FrontendEOA this args false cur total
                          TransferManager w st))
         = (st_trace st ++ begins FrontendEOA TransferManager
              :: IsTransferManagerApproved r :: l)%list).
Proof.
  split.
  - change (sat (run_step FrontendEOA this args true cur total
                   TransferManager) w st
      (fun s _ => exists r l,
         st_trace s = (st_trace st ++ begins FrontendEOA TransferManager
                         :: GrantTransferManagerApproval r :: l)%list)).
    unfold run_step. cbn [body handler EOA.body EOA.handler].
    unfold EOA.transfer_manager_body. wp;
      rewrite <- ?app_assoc; cbn [app]; eexists; eexists; reflexivity.
  - change (sat (run_step FrontendEOA this args false cur total
                   TransferManager) w st
      (fun s _ => exists r l,
         st_trace s = (st_trace st ++ begins FrontendEOA TransferManager
                         :: IsTransferManagerApproved r :: l)%list)).
    unfold run_step. cbn [body handler EOA.body EOA.handler].
    unfold EOA.transfer_manager_body. wp;
      rewrite <- ?app_assoc; cbn [app]; eexists; eexists; reflexivity.
Qed.

Lemma erc20_first_call this args cur total w st :
  currency_address cur <> zeroAddress ->
  (exists r l,
      st_trace (fst (run_step FrontendEOA this args true cur total Erc20
                       w st))
      = (st_trace st ++ begins FrontendEOA Erc20
           :: ApproveErc20 (order_currency (st_order st)) total
                (Some 100000) r :: l)%list)
  /\ (exists r l,
         st_trace (fst (run_step FrontendEOA this args false cur total Erc20
                          w st))
         = (st_trace st ++ begins FrontendEOA Erc20
              :: GetERC20Allowance (order_currency (st_order st)) r
              :: l)%list).
Proof.
  intros Hc. apply String.eqb_neq in Hc. split.
  - change (sat (run_step FrontendEOA this args true cur total Erc20) w st
      (fun s _ => exists r l,
         st_trace s = (st_trace st ++ begins FrontendEOA Erc20
                         :: ApproveErc20 (order_currency (st_order st)) total
                              (Some 100000) r :: l)%list)).
    unfold run_step. cbn [body handler EOA.body EOA.handler].
    unfold EOA.erc20_body. rewrite Hc. cbn [negb when]. wp;
      rewrite <- ?app_assoc; cbn [app]; eexists; eexists; reflexivity.
  - change (sat (run_step FrontendEOA this args false cur total Erc20) w st
      (fun s _ => exists r l,
         st_trace s = (st_trace st ++ begins FrontendEOA Erc20
                         :: GetERC20Allowance (order_currency (st_order st)) r
                         :: l)%list)).
    unfold run_step. cbn [body handler EOA.body EOA.handler].
    unfold EOA.erc20_body. rewrite Hc. cbn [negb when]. wp;
      rewrite <- ?app_assoc; cbn [app]; eexists; eexists; reflexivity.
Qed.

Lemma native_erc20_ignores_environment this args cur total far far' :
  currency_address cur = zeroAddress ->
  run_step FrontendEOA this args far cur total Erc20
  = run_step FrontendEOA this args far' cur total Erc20.
Proof.
  intros Hc. unfold run_step. cbn [body EOA.body]. unfold EOA.erc20_body.
  rewrite Hc. reflexivity.
Qed.

Section Window.
Context {A B : Type}.

Lemma ignores_bind (m : M A) (k : A -> M B) :
  ignores_window m -> (forall a, ignores_window (k a)) ->
  ignores_window (bind m k).
Proof.
  intros Hm Hk window w s. unfold bind. rewrite Hm.
  destruct (m w s) as [s' [a|e]]; [apply Hk|reflexivity].
Qed.

Lemma ignores_try (m : M A) h :
  ignores_window m -> (forall e, ignores_window (h e)) ->
  ignores_window (try_catch m h).
Proof.
  intros Hm Hh window w s. unfold try_catch. rewrite Hm.
  destruct (m w s) as [s' [a|e]]; [reflexivity|apply Hh].
Qed.
End Window.

Lemma ignores_when b m : ignores_window m -> ignores_window (when b m).
Proof. intros H. destruct b; [exact H|]. intros window w s. reflexivity. Qed.

Ltac window_step :=
  lazymatch goal with
  | |- ignores_window (bind _ _) => apply ignores_bind; [|intros ?]
  | |- ignores_window (try_catch _ _) => apply ignores_try; [|intros ?]
  | |- ignores_window (when _ _) => apply ignores_when
  | |- ignores_window (if ?b then _ else _) => destruct b
  | |- ignores_window (match ?x with _ => _ end) => destruct x
  | |- ignores_window (ret _) => intros ? ? ?; reflexivity
  | |- ignores_window (throw _) => intros ? ? ?; reflexivity
  | |- ignores_window (emit _) => intros ? ? ?; reflexivity
  | |- ignores_window (ask _ _) => intros ? ? ?; reflexivity
  | |- ignores_window (gets _) => intros ? ? ?; reflexivity
  | |- ignores_window (modify _) => intros ? ? ?; reflexivity
  | |- ignores_window (world _) => intros ? ? ?; reflexivity
  | |- ignores_window Shared.now => intros ? ? ?; reflexivity
  | |- ignores_window (Shared.BigInt _) => intros ? ? ?; reflexivity
  | |- ignores_window ?m => let h := head_of m in unfold h; cbv beta iota
  end.

Lemma window_not_consulted k this args :
  k <> FrontendEOA -> ignores_window (execute k this args).
Proof. destruct k; [congruence| |]; intros _; repeat window_step. Qed.

(** C2, amended.  In the EOA strategy with environment detection, two
    steps depend on the environment: the transfer-manager step calls
    [grantTransferManagerApproval] at once in the mini-app host and
    [isTransferManagerApproved] first outside it; the ERC20 step, for a
    currency other than the zero address, calls [approveErc20] at once
    (gas limit 100000) in the host and [getERC20Allowance] first outside
    it.  The set-up, referral and order-execution steps, and the ERC20
    step for the zero address, are the same in both environments, and the
    other two strategies never look at the window. *)
Theorem environment_dependence this args cur total w st :
  (forall s far far',
      s <> Erc20 -> s <> TransferManager ->
      run_step FrontendEOA this args far cur total s
      = run_step FrontendEOA this args far' cur total s)
  /\ ((exists r l,
          st_trace (fst (run_step FrontendEOA this args true cur total
                           TransferManager w st))
          = (st_trace st ++ begins FrontendEOA TransferManager
               :: GrantTransferManagerApproval r :: l)%list)
      /\ (exists r l,
             st_trace (fst (run_step FrontendEOA this args false cur total
                              TransferManager w st))
             = (st_trace st ++ begins FrontendEOA TransferManager
                  :: IsTransferManagerApproved r :: l)%list))
  /\ (currency_address cur <> zeroAddress ->
      (exists r l,
          st_trace (fst (run_step FrontendEOA this args true cur total Erc20
                           w st))
          = (st_trace st ++ begins FrontendEOA Erc20
               :: ApproveErc20 (order_currency (st_order st)) total
                    (Some 100000) r :: l)%list)
      /\ (exists r l,
             st_trace (fst (run_step FrontendEOA this args false cur total
                              Erc20 w st))
             = (st_trace st ++ begins FrontendEOA Erc20
                  :: GetERC20Allowance (order_currency (st_order st)) r
                  :: l)%list))
  /\ (currency_address cur = zeroAddress ->
      forall far far',
        run_step FrontendEOA this args far cur total Erc20
        = run_step FrontendEOA this args far' cur total Erc20)
  /\ (forall k, k <> FrontendEOA -> ignores_window (execute k this args)).
Proof.
  split; [|split; [|split; [|split]]].
  - intros s far far' H1 H2. destruct s; try congruence; reflexivity.
  - apply transfer_manager_first_call.
  - apply erc20_first_call.
  - intros Hc far far'. now apply native_erc20_ignores_environment.
  - intros k Hk. now apply window_not_consulted.
Qed.

Lemma environment_dependence_witness :
  let w := Example.resolving Example.miniapp Example.cUSD 0 false in
  let st := initial_state Example.order in
  currency_address Example.cUSD <> zeroAddress
  /\ (exists r l,
         st_trace (fst (run_step FrontendEOA Example.this Example.args true
                          Example.cUSD 10000 Erc20 w st))
         = (st_trace st ++ begins FrontendEOA Erc20
              :: ApproveErc20 (order_currency (st_order st)) 10000
                   (Some 100000) r :: l)%list)
  /\ (exists r l,
         st_trace (fst (run_step FrontendEOA Example.this Example.args false
                          Example.cUSD 10000 Erc20 w st))
         = (st_trace st ++ begins FrontendEOA Erc20
              :: GetERC20Allowance (order_currency (st_order st)) r
              :: l)%list).
Proof.
  intros w st.
  assert (Hc : currency_address Example.cUSD <> zeroAddress)
    by (vm_compute; discriminate).
  split; [exact Hc|].
  exact (proj1 (proj2 (proj2 (environment_dependence Example.this
                                 Example.args Example.cUSD 10000 w st))) Hc).
Defined.

(** ** Truncation of texts and addresses *)

Lemma length_append a b :
  String.length (a ++ b) = (String.length a + String.length b)%nat.
Proof. induction a as [|c a IH]; simpl; [reflexivity|now rewrite IH]. Qed.

Lemma length_substring s :
  forall n m, (n + m <= String.length s)%nat ->
  String.length (String.substring n m s) = m.
Proof.
  induction s as [|c s IH]; intros n m H; simpl in H.
  - assert (n = 0%nat) by lia. assert (m = 0%nat) by lia. now subst.
  - destruct n as [|n]; simpl.
    + destruct m as [|m]; [reflexivity|]. simpl. rewrite IH; [reflexivity|lia].
    + apply IH. lia.
Qed.

Lemma substring_whole s : String.substring 0 (String.length s) s = s.
Proof. induction s as [|c s IH]; simpl; [reflexivity|now rewrite IH]. Qed.

Lemma substring_head a b :
  String.substring 0 (String.length a) (a ++ b) = a.
Proof.
  induction a as [|c a IH]; simpl; [now destruct b|now rewrite IH].
Qed.

Lemma substring_skip a b n m :
  String.substring (String.length a + n) m (a ++ b) = String.substring n m b.
Proof. induction a as [|c a IH]; simpl; [reflexivity|exact IH]. Qed.

Lemma cut_length p q s :
  (p + q <= String.length s)%nat ->
  String.length (cut p q s) = (p + 3 + q)%nat.
Proof.
  intros H. unfold cut. rewrite !length_append.
  rewrite !length_substring by lia. simpl. lia.
Qed.

Lemma cut_cut p q s :
  (p + q <= String.length s)%nat -> cut p q (cut p q s) = cut p q s.
Proof.
  intros H. unfold cut at 1.
  rewrite (cut_length p q s H). unfold cut.
  set (P := String.substring 0 p s).
  set (Q := String.substring (String.length s - q) q s).
  assert (HP : String.length P = p) by (apply length_substring; lia).
  assert (HQ : String.length Q = q) by (apply length_substring; lia).
  f_equal.
  - rewrite <- HP at 1. apply substring_head.
  - f_equal. replace (p + 3 + q - q)%nat with (String.length P + 3)%nat by lia.
    rewrite substring_skip. simpl. rewrite <- HQ at 1. apply substring_whole.
Qed.

(** The two [substring] calls of a truncation, as a [cut]. *)
Lemma js_cut s a l :
  let n := JsString.len s in
  JsString.substring s 0 a ++ "..." ++ JsString.substring_from s (n - l)
  = cut (Z.to_nat (JsString.clamp a n))
        (Z.to_nat (n - JsString.clamp (n - l) n)) s.
Proof.
  unfold JsString.substring_from, JsString.substring, cut, JsString.len,
    JsString.clamp.
  set (n := Z.of_nat (String.length s)).
  assert (Hn : 0 <= n) by (unfold n; lia).
  f_equal; [|f_equal]; f_equal; unfold n; lia.
Qed.

Lemma truncateText_long s l :
  JsString.falsy s = false -> (JsString.len s <=? l * 2) = false ->
  let p := Z.to_nat (JsString.clamp l (JsString.len s)) in
  Utils.truncateText s l = cut p p s
  /\ (p + p <= String.length s)%nat
  /\ Z.of_nat p = Z.max 0 l.
Proof.
  intros Hf Hl p. unfold Utils.truncateText. rewrite Hf, Hl, js_cut.
  apply Z.leb_gt in Hl. unfold JsString.len, JsString.clamp in *.
  fold p. split; [f_equal; unfold p; lia|]. unfold p. lia.
Qed.

Lemma truncateEthereumAddress_long s l :
  JsString.falsy s = false -> (JsString.len s <=? 2 + l * 2) = false ->
  let p := Z.to_nat (JsString.clamp (l + 2) (JsString.len s)) in
  let q := Z.to_nat (Z.max 0 l) in
  Utils.truncateEthereumAddress s l = cut p q s
  /\ (p + q <= String.length s)%nat
  /\ Z.of_nat p = Z.max 0 (l + 2).
Proof.
  intros Hf Hl p q. unfold Utils.truncateEthereumAddress.
  rewrite Hf, Hl, js_cut.
  apply Z.leb_gt in Hl. unfold JsString.len, JsString.clamp in *.
  fold p. split; [f_equal; unfold q; lia|]. unfold p, q. lia.
Qed.

Lemma cut_not_falsy p q s : JsString.falsy (cut p q s) = false.
Proof.
  unfold cut. destruct (String.substring 0 p s); reflexivity.
Qed.

Lemma truncateText_idempotent s l :
  Utils.truncateText (Utils.truncateText s l) l = Utils.truncateText s l.
Proof.
  destruct s as [|c s0]; [reflexivity|].
  set (s := String c s0). assert (Hf : JsString.falsy s = false) by reflexivity.
  destruct (JsString.len s <=? l * 2) eqn:Hl.
  { unfold Utils.truncateText at 2. rewrite Hf, Hl.
    unfold Utils.truncateText. now rewrite Hf, Hl. }
  destruct (truncateText_long s l Hf Hl) as (Heq & Hle & Hp).
  set (p := Z.to_nat (JsString.clamp l (JsString.len s))) in *.
  rewrite Heq.
  assert (Hlen : JsString.len (cut p p s) = Z.of_nat p + 3 + Z.of_nat p).
  { unfold JsString.len. rewrite cut_length by exact Hle. lia. }
  assert (Hl' : (JsString.len (cut p p s) <=? l * 2) = false).
  { apply Z.leb_gt. lia. }
  destruct (truncateText_long (cut p p s) l (cut_not_falsy p p s) Hl')
    as (Heq' & _ & Hp').
  rewrite Heq'.
  replace (Z.to_nat (JsString.clamp l (JsString.len (cut p p s)))) with p
    by lia.
  now apply cut_cut.
Qed.

Lemma truncateEthereumAddress_idempotent s l :
  Utils.truncateEthereumAddress (Utils.truncateEthereumAddress s l) l
  = Utils.truncateEthereumAddress s l.
Proof.
  destruct s as [|c s0]; [reflexivity|].
  set (s := String c s0). assert (Hf : JsString.falsy s = false) by reflexivity.
  destruct (JsString.len s <=? 2 + l * 2) eqn:Hl.
  { unfold Utils.truncateEthereumAddress at 2. rewrite Hf, Hl.
    unfold Utils.truncateEthereumAddress. now rewrite Hf, Hl. }
  destruct (truncateEthereumAddress_long s l Hf Hl) as (Heq & Hle & Hp).
  set (p := Z.to_nat (JsString.clamp (l + 2) (JsString.len s))) in *.
  set (q := Z.to_nat (Z.max 0 l)) in *.
  rewrite Heq.
  assert (Hlen : JsString.len (cut p q s) = Z.of_nat p + 3 + Z.of_nat q).
  { unfold JsString.len. rewrite cut_length by exact Hle. lia. }
  assert (Hl' : (JsString.len (cut p q s) <=? 2 + l * 2) = false).
  { apply Z.leb_gt. unfold q in *. lia. }
  destruct (truncateEthereumAddress_long (cut p q s) l
              (cut_not_falsy p q s) Hl') as (Heq' & _ & Hp').
  rewrite Heq'.
  replace (Z.to_nat (JsString.clamp (l + 2) (JsString.len (cut p q s))))
    with p by lia.
  now apply cut_cut.
Qed.

(** C10, the claim as worded, fails for a negative length: the text "a"
    with length -1 becomes "...", of length 3 and not 2 * (-1) + 3. *)
Lemma negative_length_breaks_claim :
  ~ truncated_length_as_claimed "a" (-1).
Proof. intros H. assert (Hl : JsString.len "a" > 2 * -1) by reflexivity.
  specialize (H Hl). vm_compute in H. discriminate H. Qed.

(** C10, amended.  Both truncations are idempotent and return unchanged an
    input no longer than the threshold, for every length; for a length
    that is not negative, a longer input gives a string of [2 * length + 3]
    code units (an address: [2 * length + 5]). *)
Theorem truncation_properties s l :
  (Utils.truncateText (Utils.truncateText s l) l = Utils.truncateText s l
   /\ Utils.truncateEthereumAddress (Utils.truncateEthereumAddress s l) l
      = Utils.truncateEthereumAddress s l)
  /\ ((JsString.len s <= 2 * l -> Utils.truncateText s l = s)
      /\ (JsString.len s <= 2 + 2 * l ->
          Utils.truncateEthereumAddress s l = s))
  /\ (0 <= l ->
      (JsString.len s > 2 * l ->
       JsString.len (Utils.truncateText s l) = 2 * l + 3)
      /\ (JsString.len s > 2 + 2 * l ->
          JsString.len (Utils.truncateEthereumAddress s l) = 2 * l + 5)).
Proof.
  split; [split|split; [split|]].
  - apply truncateText_idempotent.
  - apply truncateEthereumAddress_idempotent.
  - intros H. unfold Utils.truncateText.
    destruct s; [reflexivity|]. cbn [JsString.falsy].
    replace (JsString.len (String a s) <=? l * 2) with true; [reflexivity|].
    symmetry. apply Z.leb_le. lia.
  - intros H. unfold Utils.truncateEthereumAddress.
    destruct s; [reflexivity|]. cbn [JsString.falsy].
    replace (JsString.len (String a s) <=? 2 + l * 2) with true;
      [reflexivity|].
    symmetry. apply Z.leb_le. lia.
  - intros Hl. split; intros H.
    + assert (Hf : JsString.falsy s = false).
      { destruct s; [|reflexivity]. exfalso. unfold JsString.len in H.
        cbn [String.length] in H. lia. }
      assert (Hb : (JsString.len s <=? l * 2) = false)
        by (apply Z.leb_gt; lia).
      destruct (truncateText_long s l Hf Hb) as (Heq & Hle & Hp).
      rewrite Heq. unfold JsString.len in *. rewrite cut_length by exact Hle.
      lia.
    + assert (Hf : JsString.falsy s = false).
      { destruct s; [|reflexivity]. exfalso. unfold JsString.len in H.
        cbn [String.length] in H. lia. }
      assert (Hb : (JsString.len s <=? 2 + l * 2) = false)
        by (apply Z.leb_gt; lia).
      destruct (truncateEthereumAddress_long s l Hf Hb) as (Heq & Hle & Hp).
      rewrite Heq. unfold JsString.len in *. rewrite cut_length by exact Hle.
      lia.
Qed.

Lemma truncation_properties_witness :
  0 <= 4
  /\ JsString.len "0x765DE816845861e75A25fCA122bb6898B8B1282a" > 2 + 2 * 4
  /\ JsString.len
       (Utils.truncateEthereumAddress
          "0x765DE816845861e75A25fCA122bb6898B8B1282a" 4) = 2 * 4 + 5.
Proof.
  assert (H0 : 0 <= 4) by lia.
  assert (H1 : JsString.len "0x765DE816845861e75A25fCA122bb6898B8B1282a"
               > 2 + 2 * 4) by reflexivity.
  split; [exact H0|]. split; [exact H1|].
  exact (proj2 (proj2 (proj2
    (truncation_properties "0x765DE816845861e75A25fCA122bb6898B8B1282a" 4))
    H0) H1).
Defined.

(** ** Further properties of a run *)

Lemma taker_eqb_refl t : taker_eqb t t = true.
Proof. unfold taker_eqb. now rewrite !String.eqb_refl. Qed.

Lemma run_invariants k this order args w :
  let tr := trace_of k this order args w in
  let r := result_of k this order args w in
  forallb (declared k) tr = true
  /\ each_at_most_once tr = true
  /\ ends_with_Error_or_returns r = true
  /\ check_all (fun pre e _ => hands_over this order args pre e) [] tr = true
  /\ check_all
       (fun pre e post =>
          implb (buy_receipt pre e)
            (existsb marks_completed post && negb (is_rejected r))) [] tr
     = true
  /\ check_all (fun pre e _ => closes_only_first pre e) [] tr = true.
Proof.
  unfold trace_of, result_of.
  apply (run_sat k this order args w (fun s r =>
    forallb (declared k) (st_trace s) = true
    /\ each_at_most_once (st_trace s) = true
    /\ ends_with_Error_or_returns r = true
    /\ check_all (fun pre e _ => hands_over this order args pre e) []
         (st_trace s) = true
    /\ check_all
         (fun pre e post =>
            implb (buy_receipt pre e)
              (existsb marks_completed post && negb (is_rejected r))) []
         (st_trace s) = true
    /\ check_all (fun pre e _ => closes_only_first pre e) [] (st_trace s)
       = true)).
  destruct k; wp;
    (split; [reflexivity|]; split; [reflexivity|];
     split; [reflexivity|]; split;
     [unfold hands_over; close_path; rewrite ?taker_eqb_refl; reflexivity|];
     split; reflexivity).
Qed.

Lemma tolerance_monitor this order args w :
  check_all
    (fun _ e post =>
       failure_followed (EOA.isFarcasterEnvironment (w_window w)) e post) []
    (trace_of FrontendEOA this order args w) = true.
Proof.
  unfold trace_of.
  apply (run_sat FrontendEOA this order args w (fun s _ =>
    check_all
      (fun _ e post =>
         failure_followed (EOA.isFarcasterEnvironment (w_window w)) e post)
      [] (st_trace s) = true)).
  wp;
    repeat match goal with
           | H : context [(negb _ && negb _)%bool] |- _ =>
               rewrite <- negb_orb in H
           end;
    unfold failure_followed, tolerated_approval, tolerated_grant;
    close_path;
    repeat match goal with
           | H : _ = None |- _ => rewrite H
           end;
    reflexivity.
Qed.

Lemma guards_stop k this order args w :
  Shared.guards_pass this = false ->
  trace_of k this order args w = [SetOpen false]
  /\ result_of k this order args w
     = Rejected (JsError (guard_message this)).
Proof.
  unfold trace_of, result_of, run, Shared.guards_pass, guard_message.
  destruct this as [ec cid wd addr].
  cbn [this_exchangeClient this_chainId this_walletClient_data].
  intros H.
  destruct k;
    unfold execute, EOA.execute, EOAPlain.execute, Safe.execute,
      Shared.guards;
    cbn [this_exchangeClient this_chainId this_walletClient_data];
    destruct ec, (falsy_chainId cid), wd; try discriminate H;
    split; reflexivity.
Qed.

(** X1.  Every [setDialogStep] of a run names a step of the list that the run
    published with [setSteps]. *)
Theorem dialog_steps_declared k this order args w id status message :
  In (SetDialogStep id status message) (trace_of k this order args w) ->
  In id (map fst (steps_of k)).
Proof.
  intros Hin.
  destruct (run_invariants k this order args w) as (H & _).
  rewrite forallb_forall in H. specialize (H _ Hin). simpl in H.
  apply existsb_exists in H. destruct H as (x & Hx & Heq).
  apply String.eqb_eq in Heq. now subst.
Qed.

Lemma dialog_steps_declared_witness :
  In "Transaction queued" (map fst (steps_of SafeQueue)).
Proof.
  apply (dialog_steps_declared SafeQueue Example.this Example.order
           Example.args
           (Example.resolving Example.browser Example.cUSD 0 false)
           "Transaction queued" None None).
  vm_compute. auto 20.
Defined.

(** X2.  In one run the currency approval, the transfer-manager grant, the
    order, the referral signature and the referral submission are each
    sent at most once. *)
Theorem each_call_at_most_once k this order args w :
  let tr := trace_of k this order args w in
  (count is_approve tr <= 1)%nat /\ (count is_grant tr <= 1)%nat
  /\ (count is_execute tr <= 1)%nat /\ (count is_sign tr <= 1)%nat
  /\ (count is_submit tr <= 1)%nat.
Proof.
  intros tr.
  destruct (run_invariants k this order args w) as (_ & H & _).
  fold tr in H. unfold each_at_most_once in H.
  repeat (apply andb_true_iff in H; destruct H as [H ?]).
  repeat split; now apply Nat.leb_le.
Qed.

(** X3.  Whatever value a library call throws, [execute] itself ends with an
    [Error]: a raw thrown value never leaves it. *)
Theorem execute_throws_errors_only k this order args w e :
  result_of k this order args w = Rejected e -> exists m, e = JsError m.
Proof.
  intros Hr.
  destruct (run_invariants k this order args w) as (_ & _ & H & _).
  rewrite Hr in H. destruct e as [m|m s]; [now exists m|discriminate].
Qed.

Lemma execute_throws_errors_only_witness :
  exists m,
    JsError "Error setting up order execution" = JsError m.
Proof.
  apply (execute_throws_errors_only SafeQueue Example.this Example.order
           Example.args (Example.rejecting Example.browser)).
  vm_compute. reflexivity.
Defined.

Lemma created_spec address units t e :
  created address units t e = true ->
  exists o p, e = CreateFractionalSaleTakerBid o address units p (Resolved t).
Proof.
  destruct e; simpl; try discriminate. destruct r; [|discriminate].
  intros H. apply andb_true_iff in H. destruct H as [H Ht].
  apply andb_true_iff in H. destruct H as [Ha Hu].
  apply String.eqb_eq in Ha, Hu. unfold taker_eqb in Ht.
  apply andb_true_iff in Ht. destruct Ht as [H1 H2].
  apply String.eqb_eq in H1, H2. subst.
  destruct a as [r1 p1], t as [r2 p2]. simpl in *. subst. eauto.
Qed.

(** X4.  The order is executed with the taker bid that
    [createFractionalSaleTakerBid] returned for this address and
    [unitAmount], and with the signature of the order. *)
Theorem order_executed_with_created_bid k this order args w :
  forall pre e post,
    trace_of k this order args w = (pre ++ e :: post)%list ->
    is_execute e = true ->
    exists t o p,
      In (CreateFractionalSaleTakerBid o (this_address this)
            (toString (unitAmount args)) p (Resolved t)) pre
      /\ ((exists o' v r,
              e = ExecuteOrder o' (Some t) (order_signature order) v r)
          \/ (exists safe o' v r,
                 e = ExecuteOrderSafe safe o' (Some t)
                       (order_signature order) v r)).
Proof.
  intros pre e post Heq He.
  destruct (run_invariants k this order args w) as (_ & _ & _ & H & _).
  pose proof (check_all_holds _ _ H pre e post Heq) as Hh.
  unfold hands_over in Hh.
  destruct e; try discriminate He.
  - destruct taker as [t|]; [|discriminate].
    apply andb_true_iff in Hh. destruct Hh as [Hc Hs].
    apply String.eqb_eq in Hs. apply existsb_exists in Hc.
    destruct Hc as (x & Hx & Hc). apply created_spec in Hc.
    destruct Hc as (o' & p & ->). subst. exists t, o', p.
    split; [exact Hx|]. left. eauto.
  - destruct taker as [t|]; [|discriminate].
    apply andb_true_iff in Hh. destruct Hh as [Hc Hs].
    apply String.eqb_eq in Hs. apply existsb_exists in Hc.
    destruct Hc as (x & Hx & Hc). apply created_spec in Hc.
    destruct Hc as (o' & p & ->). subst. exists t, o', p.
    split; [exact Hx|]. right. eauto.
Qed.

Lemma order_executed_with_created_bid_witness :
  let tr :=
    trace_of SafeQueue Example.this Example.order Example.args
      (Example.resolving Example.browser Example.cUSD 0 false) in
  exists t o p,
    In (CreateFractionalSaleTakerBid o (this_address Example.this)
          (toString (unitAmount Example.args)) p (Resolved t))
       (Example.before 16 tr)
    /\ ((exists o' v r,
            Example.at_ 16 tr
            = ExecuteOrder o' (Some t) (order_signature Example.order) v r)
        \/ (exists safe o' v r,
               Example.at_ 16 tr
               = ExecuteOrderSafe safe o' (Some t)
                   (order_signature Example.order) v r)).
Proof.
  intros tr.
  apply (order_executed_with_created_bid SafeQueue Example.this
           Example.order Example.args
           (Example.resolving Example.browser Example.cUSD 0 false)
           (Example.before 16 tr) (Example.at_ 16 tr)
           (Example.behind 16 tr));
    vm_compute; reflexivity.
Defined.

(** X5.  Once the receipt of the buy transaction is there, an EOA run returns
    normally and marks the step "completed", whatever the status in the
    receipt: the status of the buy transaction is never looked at. *)
Theorem buy_receipt_status_ignored k this order args w :
  forall pre hash rc post,
    trace_of k this order args w
    = (pre ++ WaitForTransactionReceipt hash None None (Resolved rc)
         :: post)%list ->
    ends_with awaiting_confirmation pre = true ->
    result_of k this order args w = Resolved tt
    /\ existsb marks_completed post = true.
Proof.
  intros pre hash rc post Heq Hpre.
  destruct (run_invariants k this order args w) as (_ & _ & _ & _ & H & _).
  pose proof (check_all_holds _ _ H pre _ post Heq) as Hh.
  cbn [buy_receipt] in Hh. rewrite Hpre in Hh. simpl in Hh.
  apply andb_true_iff in Hh. destruct Hh as [Hc Hr]. split; [|exact Hc].
  destruct (result_of k this order args w) as [[]|]; [reflexivity|].
  discriminate Hr.
Qed.

Lemma buy_receipt_status_ignored_witness :
  let w :=
    Example.reverting
      (Example.resolving Example.browser Example.cUSD 20000 true) in
  let tr := trace_of FrontendEOA Example.this Example.order Example.args w in
  Example.at_ 16 tr
  = WaitForTransactionReceipt "0xc3" None None
      (Resolved (mkReceipt reverted "0xc3"))
  /\ result_of FrontendEOA Example.this Example.order Example.args w
     = Resolved tt
  /\ existsb marks_completed (Example.behind 16 tr) = true.
Proof.
  intros w tr. split; [vm_compute; reflexivity|].
  apply (buy_receipt_status_ignored FrontendEOA Example.this Example.order
           Example.args w (Example.before 16 tr) "0xc3"
           (mkReceipt reverted "0xc3") (Example.behind 16 tr));
    vm_compute; reflexivity.
Defined.

(** X6.  [execute] closes the dialog only when a guard stops it, and then it
    does nothing else and throws the message of the first guard that
    fails; once the dialog is open, [execute] never closes it, not even on
    failure. *)
Theorem dialog_closed_only_by_guards k this order args w :
  (forall pre post,
      trace_of k this order args w = (pre ++ SetOpen false :: post)%list ->
      pre = [])
  /\ (Shared.guards_pass this = false ->
      trace_of k this order args w = [SetOpen false]
      /\ result_of k this order args w
         = Rejected (JsError (guard_message this))).
Proof.
  split; [|apply guards_stop].
  intros pre post Heq.
  destruct (run_invariants k this order args w) as (_ & _ & _ & _ & _ & H).
  pose proof (check_all_holds _ _ H pre _ post Heq) as Hh.
  simpl in Hh. destruct pre; [reflexivity|discriminate].
Qed.

Lemma dialog_closed_only_by_guards_witness :
  let this := mkStrategy true (Some 0) true "0x11" in
  Shared.guards_pass this = false
  /\ trace_of PlainEOA this Example.order Example.args
       (Example.rejecting Example.browser) = [SetOpen false]
  /\ result_of PlainEOA this Example.order Example.args
       (Example.rejecting Example.browser)
     = Rejected (JsError "No chain id").
Proof.
  intros this.
  assert (H : Shared.guards_pass this = false) by reflexivity.
  split; [exact H|].
  exact (proj2 (dialog_closed_only_by_guards PlainEOA this Example.order
                  Example.args (Example.rejecting Example.browser)) H).
Defined.

(** X7.  In the EOA strategy with environment detection, inside the mini-app
    host a failed [approveErc20] whose message mentions "allowance",
    "approved" or "insufficient" is passed over and the run goes on to the
    transfer-manager step (likewise a failed grant that mentions
    "approved" or "already" goes on to the referral); every other failure,
    and every failure outside the host, is reported on the step. *)
Theorem tolerated_failures this order args w :
  let far := EOA.isFarcasterEnvironment (w_window w) in
  forall pre e post,
    trace_of FrontendEOA this order args w = (pre ++ e :: post)%list ->
    (forall c a g err,
        e = ApproveErc20 c a g (Rejected err) ->
        if far && tolerated_approval err
        then next_is (announces FrontendEOA TransferManager) post = true
        else next_is (reports_error "ERC20") post = true)
    /\ (forall err,
           e = GrantTransferManagerApproval (Rejected err) ->
           if far && tolerated_grant err
           then next_is (announces FrontendEOA Referral) post = true
           else next_is (reports_error "Transfer manager") post = true).
Proof.
  intros far pre e post Heq.
  pose proof (check_all_holds _ _ (tolerance_monitor this order args w)
                pre e post Heq) as H.
  fold far in H. split.
  - intros c a g err ->. cbn [failure_followed] in H.
    destruct (far && tolerated_approval err); exact H.
  - intros err ->. cbn [failure_followed] in H.
    destruct (far && tolerated_grant err); exact H.
Qed.

Lemma tolerated_failures_witness :
  let w :=
    Example.failing_approval "insufficient funds for gas"
      (Example.resolving Example.miniapp Example.cUSD 0 false) in
  let tr := trace_of FrontendEOA Example.this Example.order Example.args w in
  Example.at_ 6 tr
  = ApproveErc20 (order_currency Example.order) 10000 (Some 100000)
      (Rejected (JsError "insufficient funds for gas"))
  /\ next_is (announces FrontendEOA TransferManager) (Example.behind 6 tr)
     = true.
Proof.
  intros w tr.
  assert (He : Example.at_ 6 tr
               = ApproveErc20 (order_currency Example.order) 10000
                   (Some 100000)
                   (Rejected (JsError "insufficient funds for gas")))
    by (vm_compute; reflexivity).
  split; [exact He|].
  assert (Heq : tr = (Example.before 6 tr ++ Example.at_ 6 tr
                      :: Example.behind 6 tr)%list)
    by (vm_compute; reflexivity).
  exact (proj1 (tolerated_failures Example.this Example.order Example.args w
                  _ _ _ Heq) _ _ _ _ He).
Defined.

(** ** Detection of the mini-app host *)

Lemma lower_lower c : EOA.lower (EOA.lower c) = EOA.lower c.
Proof. destruct c as [[] [] [] [] [] [] [] []]; reflexivity. Qed.

Lemma toLowerCase_idempotent s :
  EOA.toLowerCase (EOA.toLowerCase s) = EOA.toLowerCase s.
Proof.
  induction s as [|c s IH]; simpl; [reflexivity|].
  now rewrite lower_lower, IH.
Qed.

Lemma toLowerCase_append a b :
  EOA.toLowerCase (a ++ b) = EOA.toLowerCase a ++ EOA.toLowerCase b.
Proof. induction a as [|c a IH]; simpl; [reflexivity|now rewrite IH]. Qed.

(** X8.  The user agent is searched without regard to case: "farcaster" in any
    capitalisation is detected, and a user agent and its lower-case form
    give the same answer.  Without a window the answer is no; in a frame
    it is yes. *)
Theorem farcaster_detection :
  (forall ua before word behind host frame,
      ua = before ++ word ++ behind ->
      EOA.toLowerCase word = "farcaster" ->
      EOA.isFarcasterEnvironment (Some (mkWindow ua host frame)) = true)
  /\ (forall ua host frame,
         EOA.isFarcasterEnvironment
           (Some (mkWindow (EOA.toLowerCase ua) host frame))
         = EOA.isFarcasterEnvironment (Some (mkWindow ua host frame)))
  /\ EOA.isFarcasterEnvironment None = false
  /\ (forall ua host,
         EOA.isFarcasterEnvironment (Some (mkWindow ua host true)) = true).
Proof.
  split; [|split; [|split]].
  - intros ua b x a host frame -> Hx. unfold EOA.isFarcasterEnvironment.
    cbn [userAgent]. rewrite !toLowerCase_append, Hx.
    rewrite includes_append_r; [reflexivity|].
    apply includes_here, prefix_append.
  - intros ua host frame. unfold EOA.isFarcasterEnvironment.
    cbn [userAgent hostname isFrame]. now rewrite toLowerCase_idempotent.
  - reflexivity.
  - intros ua host. unfold EOA.isFarcasterEnvironment. cbn [isFrame].
    apply orb_true_r.
Qed.

Lemma farcaster_detection_witness :
  EOA.isFarcasterEnvironment
    (Some (mkWindow "Mozilla/5.0 FARCASTER-Mobile" "app.example.org" false))
  = true.
Proof.
  apply (proj1 farcaster_detection _ "Mozilla/5.0 " "FARCASTER" "-Mobile");
    reflexivity.
Defined.

(** ** The share bought, in percent *)

(** X9.  For bigint arguments [calculateBigIntPercentage] never throws; it
    gives [undefined] exactly when one of them is zero; and for
    [0 < numerator <= denominator] the quotient it converts is the floor of
    [numerator * 100 * 10^18 / denominator], between 0 and [100 * 10^18]. *)
Theorem percentage_of_bigints parse n d :
  let r :=
    Percentage.calculateBigIntPercentage parse (Percentage.Big n)
      (Percentage.Big d) in
  is_rejected r = false
  /\ (r = Resolved None <-> n = 0 \/ d = 0)
  /\ (0 < n <= d ->
      exists q,
        r = Resolved (Some q)
        /\ 0 <= q <= 100 * Percentage.precision
        /\ q * d <= n * 100 * Percentage.precision < (q + 1) * d).
Proof.
  intros r. unfold r, Percentage.calculateBigIntPercentage.
  cbn [Percentage.falsy Percentage.toBigInt].
  destruct (n =? 0) eqn:Hn; [apply Z.eqb_eq in Hn|apply Z.eqb_neq in Hn];
    cbn [orb].
  { split; [reflexivity|]. split; [tauto|lia]. }
  destruct (d =? 0) eqn:Hd; [apply Z.eqb_eq in Hd|apply Z.eqb_neq in Hd].
  { split; [reflexivity|]. split; [tauto|lia]. }
  split; [reflexivity|]. split.
  - split; [discriminate|tauto].
  - intros [H0 Hle]. eexists. split; [reflexivity|].
    assert (Hp : 0 < Percentage.precision) by reflexivity.
    rewrite Z.quot_div_nonneg by nia.
    pose proof (Z.div_mod (n * 100 * Percentage.precision) d Hd) as Hdm.
    pose proof (Z.mod_pos_bound (n * 100 * Percentage.precision) d) as Hm.
    assert (Hq0 : 0 <= n * 100 * Percentage.precision / d)
      by (apply Z.div_pos; nia).
    assert (Hqle : n * 100 * Percentage.precision / d
                   <= 100 * Percentage.precision).
    { apply Z.div_le_upper_bound; nia. }
    split; [lia|]. nia.
Qed.

Lemma percentage_of_bigints_witness :
  0 < 40 <= 1000
  /\ exists q,
       Percentage.calculateBigIntPercentage Example.decimal_BigInt
         (Percentage.Big 40) (Percentage.Big 1000) = Resolved (Some q)
       /\ 0 <= q <= 100 * Percentage.precision
       /\ q * 1000 <= 40 * 100 * Percentage.precision < (q + 1) * 1000.
Proof.
  assert (H : 0 < 40 <= 1000) by lia.
  split; [exact H|].
  exact (proj2 (proj2 (percentage_of_bigints Example.decimal_BigInt 40 1000))
           H).
Defined.

(** X10.  The zero test of [calculateBigIntPercentage] does not see a zero
    written as a string: with a non-empty string that reads as zero for
    denominator, and a numerator that is not zero, the division throws. *)
Theorem percentage_of_string_zero parse n s :
  n <> 0 -> s <> "" -> parse s = Some 0 ->
  Percentage.calculateBigIntPercentage parse (Percentage.Big n)
    (Percentage.Str s) = Rejected (JsError "Division by zero").
Proof.
  intros Hn Hs Hp. unfold Percentage.calculateBigIntPercentage.
  cbn [Percentage.falsy Percentage.toBigInt].
  apply Z.eqb_neq in Hn. rewrite Hn. apply falsy_empty in Hs. rewrite Hs.
  cbn [orb]. now rewrite Hp.
Qed.

Lemma percentage_of_string_zero_witness :
  Percentage.calculateBigIntPercentage Example.decimal_BigInt
    (Percentage.Big 40) (Percentage.Str "0")
  = Rejected (JsError "Division by zero").
Proof.
  apply percentage_of_string_zero; [discriminate|discriminate|reflexivity].
Defined.

(** ** Links *)

Lemma append_nonempty a b : b <> "" -> a ++ b <> "".
Proof. destruct a; simpl; [auto|discriminate]. Qed.

Lemma append_cancel_l a b c : a ++ b = a ++ c -> b = c.
Proof.
  induction a as [|x a IH]; simpl; [auto|].
  intros H. injection H as H. auto.
Qed.

(** X11.  The Safe link is empty exactly when there is no chain; for a given
    chain it determines the Safe address; and two chains among the six
    that [getSafeChainAbbreviation] knows have the same abbreviation only
    if they have the same id, whatever their names. *)
Theorem safe_links chain :
  (forall a, Links.generateSafeAppLink chain a = "" <-> chain = None)
  /\ (forall a b,
         chain <> None ->
         Links.generateSafeAppLink chain a = Links.generateSafeAppLink chain b
         -> a = b)
  /\ (forall c1 c2,
         In (Links.chain_id c1) Links.safe_chains ->
         In (Links.chain_id c2) Links.safe_chains ->
         Links.getSafeChainAbbreviation (Some c1)
         = Links.getSafeChainAbbreviation (Some c2) ->
         Links.chain_id c1 = Links.chain_id c2).
Proof.
  split; [|split].
  - intros a. destruct chain as [c|]; simpl; [|tauto].
    split; [discriminate|discriminate].
  - intros a b Hc. destruct chain as [c|]; [|congruence].
    unfold Links.generateSafeAppLink. intros H.
    apply append_cancel_l, append_cancel_l in H.
    now injection H.
  - intros c1 c2 H1 H2. unfold Links.getSafeChainAbbreviation.
    simpl in H1, H2.
    repeat (destruct H1 as [H1|H1]); try contradiction;
      repeat (destruct H2 as [H2|H2]); try contradiction;
      rewrite <- H1, <- H2; simpl; congruence.
Qed.

Lemma safe_links_witness :
  let celo := Some (Links.mkChain 42220 "Celo" None) in
  celo <> None
  /\ Links.generateSafeAppLink celo "0x1111"
     = "https://app.safe.global/transactions/queue?safe=celo:0x1111"
  /\ (Links.generateSafeAppLink celo "0x1111"
      = Links.generateSafeAppLink celo "0x1111" -> "0x1111" = "0x1111").
Proof.
  intros celo.
  assert (H : celo <> None) by discriminate.
  split; [exact H|]. split; [reflexivity|].
  exact (proj1 (proj2 (safe_links celo)) "0x1111" "0x1111" H).
Defined.

(** X12.  The block-explorer link is empty exactly when there is no chain.  For
    the five chains that [getBlockExplorerPath] knows the path does not
    depend on the explorer the chain itself declares; for any other chain
    it is that explorer, and the text "undefined" when the chain declares
    none. *)
Theorem block_explorer_links :
  (forall chain h, Links.generateBlockExplorerLink chain h = "" <->
                   chain = None)
  /\ (forall id name e1 e2,
         In id Links.explorer_chains ->
         Links.getBlockExplorerPath (Some (Links.mkChain id name e1))
         = Links.getBlockExplorerPath (Some (Links.mkChain id name e2)))
  /\ (forall id name e h,
         ~ In id Links.explorer_chains ->
         Links.generateBlockExplorerLink (Some (Links.mkChain id name e)) h
         = Links.render e ++ "/tx/" ++ h).
Proof.
  split; [|split].
  - intros chain h. destruct chain as [c|]; [|simpl; tauto].
    unfold Links.generateBlockExplorerLink. split; [|discriminate].
    intros H. exfalso. revert H. apply append_nonempty. discriminate.
  - intros id name e1 e2 H. simpl in H.
    repeat (destruct H as [H|H]); try contradiction; subst; reflexivity.
  - intros id name e h H. unfold Links.generateBlockExplorerLink,
      Links.getBlockExplorerPath. cbn [Links.chain_id Links.chain_explorer].
    simpl in H.
    repeat match goal with
           | |- context [?a =? ?b] =>
               let E := fresh in
               destruct (a =? b) eqn:E;
               [apply Z.eqb_eq in E; exfalso; apply H; rewrite E; simpl; tauto
               |clear E]
           end.
    reflexivity.
Qed.

Lemma block_explorer_links_witness :
  Links.generateBlockExplorerLink
    (Some (Links.mkChain 11155111 "Sepolia" None)) "0xc3"
  = "undefined/tx/0xc3".
Proof.
  apply (proj2 (proj2 block_explorer_links) 11155111 "Sepolia" None "0xc3").
  simpl. intros H. repeat (destruct H as [H|H]; [discriminate H|]).
  exact H.
Defined.

(** ** The regular-expression test is sound *)

Lemma nullable_lang r : Regex.nullable r = true -> Regex.lang r "".
Proof.
  induction r; simpl; intros H; try discriminate.
  - constructor.
  - apply andb_true_iff in H. destruct H as [Ha Hb].
    change "" with ("" ++ ""). constructor; auto.
  - apply orb_true_iff in H. destruct H as [H|H];
      [apply Regex.lang_alt_l|apply Regex.lang_alt_r]; auto.
  - constructor.
Qed.

Lemma deriv_lang c r :
  forall s, Regex.lang (Regex.deriv c r) s -> Regex.lang r (String c s).
Proof.
  induction r; simpl; intros s H.
  - inversion H.
  - inversion H.
  - destruct (p c) eqn:Hp; inversion H; subst. now constructor.
  - destruct (Regex.nullable r1) eqn:Hn.
    + inversion H; subst.
      * match goal with
        | Hc : Regex.lang (Regex.Cat _ _) _ |- _ => inversion Hc; subst
        end.
        change (String c (s0 ++ t)) with (String c s0 ++ t).
        constructor; auto.
      * change (String c s) with ("" ++ String c s).
        constructor; [now apply nullable_lang|auto].
    + inversion H; subst.
      change (String c (s0 ++ t)) with (String c s0 ++ t).
      constructor; auto.
  - inversion H; subst;
      [apply Regex.lang_alt_l|apply Regex.lang_alt_r]; auto.
  - inversion H; subst.
    change (String c (s0 ++ t)) with (String c s0 ++ t).
    constructor; auto.
Qed.

Lemma test_lang s : forall r, Regex.test r s = true -> Regex.lang r s.
Proof.
  induction s as [|c s IH]; simpl; intros r H.
  - now apply nullable_lang.
  - apply deriv_lang. now apply IH.
Qed.

Lemma all_append p a b :
  Regex.all p (a ++ b) = (Regex.all p a && Regex.all p b)%bool.
Proof.
  induction a as [|c a IH]; simpl; [reflexivity|].
  now rewrite IH, andb_assoc.
Qed.

Lemma lang_star_class p s :
  Regex.lang (Regex.Star (Regex.Cls p)) s -> Regex.all p s = true.
Proof.
  intros H. remember (Regex.Star (Regex.Cls p)) as r eqn:Hr.
  induction H; try discriminate; [reflexivity|].
  injection Hr as ->. rewrite all_append, IHlang2 by reflexivity.
  inversion H; subst. simpl.
  match goal with Hp : p _ = true |- _ => now rewrite Hp end.
Qed.

Lemma lang_plus_class p s :
  Regex.lang (Regex.plus (Regex.Cls p)) s ->
  s <> "" /\ Regex.all p s = true.
Proof.
  intros H. inversion H; subst.
  match goal with
  | Hc : Regex.lang (Regex.Cls _) _ |- _ => inversion Hc; subst
  end.
  split; [discriminate|]. simpl.
  match goal with
  | Hs : Regex.lang (Regex.Star _) _ |- _ =>
      apply lang_star_class in Hs; rewrite Hs
  end.
  match goal with Hp : p _ = true |- _ => now rewrite Hp end.
Qed.

Lemma lang_power_class p n :
  forall s, Regex.lang (Regex.power n (Regex.Cls p)) s ->
  String.length s = n /\ Regex.all p s = true.
Proof.
  induction n as [|n IH]; simpl; intros s H; inversion H; subst.
  - auto.
  - match goal with
    | Hc : Regex.lang (Regex.Cls _) _ |- _ => inversion Hc; subst
    end.
    match goal with
    | Hs : Regex.lang (Regex.power _ _) _ |- _ =>
        destruct (IH _ Hs) as [Hl Ha]
    end.
    simpl. rewrite Hl, Ha. split; [reflexivity|].
    match goal with Hp : p _ = true |- _ => now rewrite Hp end.
Qed.

Lemma lang_upto_class p n :
  forall s, Regex.lang (Regex.upto n (Regex.Cls p)) s ->
  (String.length s <= n)%nat /\ Regex.all p s = true.
Proof.
  induction n as [|n IH]; simpl; intros s H; inversion H; subst.
  - auto.
  - match goal with
    | He : Regex.lang Regex.Eps _ |- _ => inversion He; subst
    end.
    simpl. split; [lia|reflexivity].
  - match goal with
    | Hc : Regex.lang (Regex.Cat _ _) _ |- _ => inversion Hc; subst
    end.
    match goal with
    | Hc : Regex.lang (Regex.Cls _) _ |- _ => inversion Hc; subst
    end.
    match goal with
    | Hs : Regex.lang (Regex.upto _ _) _ |- _ =>
        destruct (IH _ Hs) as [Hl Ha]
    end.
    simpl. rewrite Ha. split; [lia|].
    match goal with Hp : p _ = true |- _ => now rewrite Hp end.
Qed.

Lemma lang_between_class p n m s :
  Regex.lang (Regex.between n m (Regex.Cls p)) s ->
  (n <= String.length s <= n + (m - n))%nat /\ Regex.all p s = true.
Proof.
  intros H. inversion H; subst.
  match goal with
  | H1 : Regex.lang (Regex.power _ _) _,
    H2 : Regex.lang (Regex.upto _ _) _ |- _ =>
      apply lang_power_class in H1; apply lang_upto_class in H2;
      destruct H1 as [L1 A1]; destruct H2 as [L2 A2]
  end.
  rewrite length_append, all_append, A1, A2. split; [lia|reflexivity].
Qed.

Lemma lang_lit t : forall s, Regex.lang (Regex.lit t) s -> s = t.
Proof.
  induction t as [|c t IH]; simpl; intros s H; inversion H; subst.
  - reflexivity.
  - match goal with
    | Hc : Regex.lang (Regex.Cls _) _ |- _ => inversion Hc; subst
    end.
    match goal with
    | He : Ascii.eqb _ _ = true |- _ => apply Ascii.eqb_eq in He; subst
    end.
    simpl. f_equal. now apply IH.
Qed.

(** ** Identifiers of hypercerts *)

Lemma split_not_nil sep s : HypercertId.split sep s <> [].
Proof.
  destruct s as [|c s]; simpl; [discriminate|].
  destruct (Ascii.eqb c sep); [discriminate|].
  destruct (HypercertId.split sep s); discriminate.
Qed.

Lemma concat_cons sep x l :
  l <> [] -> String.concat sep (x :: l) = x ++ sep ++ String.concat sep l.
Proof. destruct l; [congruence|reflexivity]. Qed.

Lemma concat_String sep c h t :
  String.concat sep (String c h :: t) = String c (String.concat sep (h :: t)).
Proof. destruct t; reflexivity. Qed.

(** Joining the parts of a [split] gives the text back. *)
Lemma concat_split sep s :
  String.concat (String sep "") (HypercertId.split sep s) = s.
Proof.
  induction s as [|c s IH]; simpl; [reflexivity|].
  destruct (Ascii.eqb c sep) eqn:E.
  - apply Ascii.eqb_eq in E. subst c.
    rewrite concat_cons by apply split_not_nil. simpl. now rewrite IH.
  - pose proof (split_not_nil sep s) as Hn.
    destruct (HypercertId.split sep s) as [|h t]; [congruence|].
    rewrite concat_String. now rewrite IH.
Qed.

(** A text without the separator is one part, and a separator after such
    a text ends a part. *)
Lemma split_plain sep a :
  Regex.all (fun c => negb (Ascii.eqb c sep)) a = true ->
  HypercertId.split sep a = [a].
Proof.
  induction a as [|c a IH]; simpl; [reflexivity|]. intros H.
  apply andb_true_iff in H. destruct H as [Hc Ha].
  apply negb_true_iff in Hc. rewrite Hc, IH by exact Ha. reflexivity.
Qed.

Lemma split_at sep a r :
  Regex.all (fun c => negb (Ascii.eqb c sep)) a = true ->
  HypercertId.split sep (a ++ String sep r) = a :: HypercertId.split sep r.
Proof.
  induction a as [|c a IH]; simpl; intros H.
  - now rewrite Ascii.eqb_refl.
  - apply andb_true_iff in H. destruct H as [Hc Ha].
    apply negb_true_iff in Hc. rewrite Hc, IH by exact Ha. reflexivity.
Qed.

Lemma all_weaken (p q : ascii -> bool) s :
  (forall c, p c = true -> q c = true) ->
  Regex.all p s = true -> Regex.all q s = true.
Proof.
  intros Hpq. induction s as [|c s IH]; simpl; [reflexivity|].
  intros H. apply andb_true_iff in H. destruct H as [Hc Hs].
  now rewrite (Hpq _ Hc), IH.
Qed.

Lemma digit_not_dash c :
  Regex.digit c = true -> negb (Ascii.eqb c HypercertId.dash) = true.
Proof.
  destruct c as [[] [] [] [] [] [] [] []]; vm_compute; intros; congruence.
Qed.

Lemma hex_not_dash c :
  Regex.hex c = true -> negb (Ascii.eqb c HypercertId.dash) = true.
Proof.
  destruct c as [[] [] [] [] [] [] [] []]; vm_compute; intros; congruence.
Qed.

(** What an identifier accepted by [isValidHypercertId] looks like. *)
Lemma valid_shape id :
  HypercertId.isValidHypercertId id = true ->
  exists chain address token,
    id = chain ++ "-" ++ ("0x" ++ address) ++ "-" ++ token
    /\ chain <> "" /\ Regex.all Regex.digit chain = true
    /\ (39 <= String.length address <= 42)%nat
    /\ Regex.all Regex.hex address = true
    /\ (39 <= String.length token <= 42)%nat
    /\ Regex.all Regex.digit token = true.
Proof.
  intros H. apply test_lang in H. unfold HypercertId.hypercertIdRegex in H.
  inversion H as [| |a1 b1 chain r1 Hchain H1| | | |]; subst.
  inversion H1 as [| |a2 b2 l2 r2 Hl2 H2| | | |]; subst.
  inversion H2 as [| |a3 b3 address r3 Haddr H3| | | |]; subst.
  inversion H3 as [| |a4 b4 l4 token Hl4 Htok| | | |]; subst.
  apply (lang_lit "-0x") in Hl2. apply (lang_lit "-") in Hl4. subst.
  apply lang_plus_class in Hchain. destruct Hchain as [Hne Hd].
  apply lang_between_class in Haddr, Htok.
  destruct Haddr as [La Ha]. destruct Htok as [Lt Ht].
  exists chain, address, token. repeat split; auto; lia.
Qed.

(** The parts of an identifier accepted by [isValidHypercertId]. *)
Lemma valid_split id :
  HypercertId.isValidHypercertId id = true ->
  exists chain address token,
    HypercertId.split HypercertId.dash id = [chain; address; token]
    /\ chain <> "" /\ address <> "" /\ token <> ""
    /\ String.prefix "0x" address = true
    /\ (41 <= String.length address <= 44)%nat
    /\ (39 <= String.length token <= 42)%nat.
Proof.
  intros H.
  destruct (valid_shape id H)
    as (chain & a & token & -> & Hne & Hd & La & Ha & Lt & Ht).
  exists chain, ("0x" ++ a), token.
  assert (Hc : Regex.all (fun c => negb (Ascii.eqb c HypercertId.dash)) chain
               = true)
    by (exact (all_weaken _ _ _ digit_not_dash Hd)).
  assert (Hx : Regex.all (fun c => negb (Ascii.eqb c HypercertId.dash))
                 ("0x" ++ a) = true).
  { simpl. exact (all_weaken _ _ _ hex_not_dash Ha). }
  assert (Hk : Regex.all (fun c => negb (Ascii.eqb c HypercertId.dash)) token
               = true)
    by (exact (all_weaken _ _ _ digit_not_dash Ht)).
  split.
  { change ("-" ++ ("0x" ++ a) ++ "-" ++ token)
      with (String HypercertId.dash (("0x" ++ a) ++ "-" ++ token)).
    rewrite (split_at _ _ _ Hc).
    change ("-" ++ token) with (String HypercertId.dash token).
    rewrite (split_at _ _ _ Hx), (split_plain _ _ Hk). reflexivity. }
  split; [exact Hne|]. split; [discriminate|].
  split; [destruct token; [simpl in Lt; lia|discriminate]|].
  split; [apply prefix_append|].
  cbn [String.length append]. lia.
Qed.



Lemma falsy_part_false p :
  HypercertId.falsy_part p = false ->
  exists s, p = Some s /\ s <> "".
Proof.
  destruct p as [s|]; simpl; [|discriminate]. intros H.
  exists s. split; [reflexivity|]. now apply falsy_empty.
Qed.

(** X14.  [getHypercert] sends a request only for an identifier whose first
    three parts are not empty and whose second part [getAddress] accepts
    and [isAddress] confirms; the identifier it asks for is made of the
    first part, the address as [getAddress] returned it, and the third
    part; parts after the third are dropped. *)
Theorem request_only_for_wellformed_id {F} (w : HypercertId.World F) id asked :
  In (HypercertId.Request asked) (fst (HypercertId.getHypercert w id)) ->
  exists chain address token rest checksummed,
    HypercertId.split HypercertId.dash id
    = chain :: address :: token :: rest
    /\ chain <> "" /\ address <> "" /\ token <> ""
    /\ HypercertId.getAddress w address = Resolved checksummed
    /\ HypercertId.isAddress w checksummed = true
    /\ asked = chain ++ "-" ++ checksummed ++ "-" ++ token.
Proof.
  unfold HypercertId.getHypercert.
  destruct (HypercertId.split HypercertId.dash id) as [|c [|a [|t rest]]];
    cbn [nth_error HypercertId.falsy_part orb];
    rewrite ?orb_true_r;
    try (simpl; intros [H|[]]; discriminate H).
  destruct (JsString.falsy c) eqn:Hc;
    [simpl; intros [H|[]]; discriminate H|].
  destruct (JsString.falsy a) eqn:Ha;
    [simpl; intros [H|[]]; discriminate H|].
  destruct (JsString.falsy t) eqn:Ht;
    [simpl; intros [H|[]]; discriminate H|].
  cbn [orb HypercertId.part].
  destruct (HypercertId.getAddress w a) as [x|e] eqn:Hg; [|intros []].
  destruct (HypercertId.isAddress w x) eqn:Hi; cbn [negb];
    [|simpl; intros [H|[]]; discriminate H].
  apply falsy_empty in Hc, Ha, Ht.
  intros Hin.
  assert (Heq : asked = c ++ "-" ++ x ++ "-" ++ t).
  { destruct (HypercertId.request w (c ++ "-" ++ x ++ "-" ++ t));
      simpl in Hin; destruct Hin as [H|[]]; now injection H. }
  exists c, a, t, rest, x. repeat split; auto.
Qed.

Lemma request_only_for_wellformed_id_witness :
  let w :=
    HypercertId.mkWorld unit (fun a => Resolved a) (fun _ => true)
      (fun _ => Resolved None) in
  exists chain address token rest checksummed,
    HypercertId.split HypercertId.dash "10-0xAb-7-extra"
    = chain :: address :: token :: rest
    /\ chain <> "" /\ address <> "" /\ token <> ""
    /\ HypercertId.getAddress w address = Resolved checksummed
    /\ HypercertId.isAddress w checksummed = true
    /\ "10-0xAb-7" = chain ++ "-" ++ checksummed ++ "-" ++ token.
Proof.
  intros w.
  apply (request_only_for_wellformed_id w "10-0xAb-7-extra" "10-0xAb-7").
  vm_compute. auto.
Defined.

(** X15.  An identifier that [isValidHypercertId] accepts passes the first
    check of [getHypercert] (it is never answered with "Invalid
    hypercertId"); and when [getAddress] returns the address part as it
    is, the identifier asked for is the identifier given. *)
Theorem valid_id_is_looked_up {F} (w : HypercertId.World F) id :
  HypercertId.isValidHypercertId id = true ->
  ~ In (HypercertId.ConsoleError "Invalid hypercertId")
      (fst (HypercertId.getHypercert w id))
  /\ (forall asked address,
         nth_error (HypercertId.split HypercertId.dash id) 1 = Some address ->
         HypercertId.getAddress w address = Resolved address ->
         In (HypercertId.Request asked)
           (fst (HypercertId.getHypercert w id)) ->
         asked = id).
Proof.
  intros Hv.
  destruct (valid_split id Hv) as (c & a & t & Hs & Hc & Ha & Ht & _).
  apply falsy_empty in Hc, Ha, Ht.
  unfold HypercertId.getHypercert. rewrite Hs.
  cbn [nth_error HypercertId.falsy_part]. rewrite Hc, Ha, Ht.
  cbn [orb HypercertId.part]. split.
  - destruct (HypercertId.getAddress w a) as [x|e]; [|intros []].
    destruct (HypercertId.isAddress w x); cbn [negb].
    + destruct (HypercertId.request w _); simpl; intros [H|[]];
        discriminate H.
    + simpl. intros [H|[]]. discriminate H.
  - intros asked address Hn Hg. injection Hn as <-. rewrite Hg.
    assert (Hid : id = c ++ "-" ++ a ++ "-" ++ t).
    { rewrite <- (concat_split HypercertId.dash id) at 1. now rewrite Hs. }
    rewrite <- Hid.
    destruct (HypercertId.isAddress w a); cbn [negb];
      [|simpl; intros [H|[]]; discriminate H].
    destruct (HypercertId.request w id); simpl; intros [H|[]];
      now injection H.
Qed.

Lemma valid_id_is_looked_up_witness :
  let id :=
    "42220-0x16bA53B74c234C870c61EFC04cD418B8f2865959-340282366920938463463374607431768211456" in
  let w :=
    HypercertId.mkWorld unit (fun a => Resolved a) (fun _ => true)
      (fun _ => Resolved None) in
  HypercertId.isValidHypercertId id = true
  /\ ~ In (HypercertId.ConsoleError "Invalid hypercertId")
         (fst (HypercertId.getHypercert w id)).
Proof.
  intros id w.
  assert (H : HypercertId.isValidHypercertId id = true)
    by (vm_compute; reflexivity).
  split; [exact H|]. exact (proj1 (valid_id_is_looked_up w id H)).
Defined.
